(** * StockPredictor (src/stock_analysis/stock.py): a shallow embedding

    Python floats are modelled as real numbers extended with the two
    infinities and NaN ([fnum]); the arithmetic follows IEEE on these
    classes (signed zeros are not distinguished).  numpy arrays live in an
    explicit heap, so that the aliasing of [self.features] and of the
    arrays built by [predict_future] is visible.  Exceptions raised by
    Python, numpy or pandas are the constructors of [exn]. *)

From Stdlib Require Import Reals Lra Lia List Bool ZArith Sorting.Sorted.
From Stdlib Require String.
Import ListNotations.
Import (notations) String.

Local Open Scope R_scope.

(** ** Floats *)

Inductive fnum : Type :=
| Fin (r : R)
| Inf (pos : bool)
| NaN.

Definition isnan (x : fnum) : bool :=
  match x with NaN => true | _ => false end.

Definition fneg (x : fnum) : fnum :=
  match x with
  | Fin a => Fin (- a)
  | Inf s => Inf (negb s)
  | NaN => NaN
  end.

Definition fadd (x y : fnum) : fnum :=
  match x, y with
  | NaN, _ | _, NaN => NaN
  | Fin a, Fin b => Fin (a + b)
  | Inf s, Fin _ | Fin _, Inf s => Inf s
  | Inf s, Inf t => if Bool.eqb s t then Inf s else NaN
  end.

Definition fsub (x y : fnum) : fnum := fadd x (fneg y).

(** [true] when the real is strictly positive. *)
Definition rpos (b : R) : bool := if Rlt_dec 0 b then true else false.

Definition fmul (x y : fnum) : fnum :=
  match x, y with
  | NaN, _ | _, NaN => NaN
  | Fin a, Fin b => Fin (a * b)
  | Inf s, Fin b | Fin b, Inf s =>
      if Req_EM_T b 0 then NaN else Inf (Bool.eqb s (rpos b))
  | Inf s, Inf t => Inf (Bool.eqb s t)
  end.

Definition fdiv (x y : fnum) : fnum :=
  match x, y with
  | NaN, _ | _, NaN => NaN
  | Fin a, Fin b =>
      if Req_EM_T b 0 then (if Req_EM_T a 0 then NaN else Inf (rpos a))
      else Fin (a / b)
  | Fin _, Inf _ => Fin 0
  | Inf s, Fin b => if Req_EM_T b 0 then Inf s else Inf (Bool.eqb s (rpos b))
  | Inf _, Inf _ => NaN
  end.

(** [x < y]; every comparison with NaN is false. *)
Definition flt (x y : fnum) : bool :=
  match x, y with
  | NaN, _ | _, NaN => false
  | Fin a, Fin b => if Rlt_dec a b then true else false
  | Inf true, _ => false
  | _, Inf false => false
  | Inf false, _ => true
  | Fin _, Inf true => true
  end.

(** ** Exceptions and the error monad *)

Inductive exn : Type :=
| IndexError
| ValueError
| AxisError
| AttributeError
| TypeError.

Inductive res (A : Type) : Type :=
| Ok (a : A)
| Raise (e : exn).
Arguments Ok {A} a.
Arguments Raise {A} e.

Definition bind {A B : Type} (m : res A) (k : A -> res B) : res B :=
  match m with Ok a => k a | Raise e => Raise e end.

Notation "x <- m ;; k" := (bind m (fun x => k))
  (at level 61, m at next level, right associativity).

Fixpoint fold_res {A S : Type} (f : S -> A -> res S) (l : list A) (s : S)
  : res S :=
  match l with
  | [] => Ok s
  | a :: l' => s' <- f s a ;; fold_res f l' s'
  end.

Fixpoint map_res {A B : Type} (f : A -> res B) (l : list A) : res (list B) :=
  match l with
  | [] => Ok []
  | a :: l' => b <- f a ;; bs <- map_res f l' ;; Ok (b :: bs)
  end.

(** ** numpy reductions on float arrays (np.mean, np.std) *)

Definition rsum (xs : list R) : R := fold_right Rplus 0 xs.

Definition np_mean (xs : list R) : R := rsum xs / INR (length xs).

(** Population standard deviation, numpy's default [ddof=0]. *)
Definition np_std (xs : list R) : R :=
  let m := np_mean xs in
  sqrt (np_mean (map (fun x => (x - m) * (x - m)) xs)).

(** ** ConfidenceEstimator, inlined in [predict_future] (lines 237-238)
    [confidence = 1 - (np.std(tree_predictions) / abs(prediction))
                  if prediction != 0 else 0]
    [confidence_scores.append(min(max(confidence, 0), 0.95))] *)

Definition confidence (prediction : R) (tree_predictions : list R) : R :=
  let c := if Req_EM_T prediction 0 then 0
           else 1 - np_std tree_predictions / Rabs prediction in
  Rmin (Rmax c 0) (95 / 100).

(** ** The data frame [self.data] *)

(** The columns read by [prepare_features] and [predict_future], in the
    order of the feature list of lines 95-115. *)
Inductive col : Type :=
| Open | High | Low | Close | Volume
| MA_5 | MA_10 | MA_20 | MA_30
| RSI | MACD | MACD_Signal | MACD_Histogram
| BB_Upper | BB_Lower | BB_Width
| Price_Change | Volume_Change | Volatility.

Definition col_eq_dec (a b : col) : {a = b} + {a <> b}.
Proof. decide equality. Defined.

Definition feature_cols : list col :=
  [Open; High; Low; Close; Volume;
   MA_5; MA_10; MA_20; MA_30;
   RSI; MACD; MACD_Signal; MACD_Histogram;
   BB_Upper; BB_Lower; BB_Width;
   Price_Change; Volume_Change; Volatility].

(** [self.features_per_day] *)
Definition features_per_day : nat := 19.

(** One row of the frame, and a dict keyed by column names. *)
Definition row := col -> fnum.

(** [d[c] = v] on a dict. *)
Definition upd (d : row) (c : col) (v : fnum) : row :=
  fun c' => if col_eq_dec c' c then v else d c'.

(** The frame: its date index (days as integers) and its rows. *)
Record frame : Type := mkFrame {
  index : list Z;
  rows : list row
}.

(** [series.iloc[-1]] *)
Definition iloc_last {A : Type} (l : list A) : res A :=
  match rev l with
  | a :: _ => Ok a
  | [] => Raise IndexError
  end.

(** ** numpy arrays and the heap *)

Inductive ndarray : Type :=
| Arr1 (xs : list fnum)
| Arr2 (rs : list (list fnum)).

(** [np.array(list_of_lists)]: an empty list gives a one-dimensional
    array of shape (0,). *)
Definition np_array2 (rs : list (list fnum)) : ndarray :=
  match rs with [] => Arr1 [] | _ => Arr2 rs end.

(** [len(a)] *)
Definition np_len (a : ndarray) : nat :=
  match a with Arr1 xs => length xs | Arr2 rs => length rs end.

(** [a[-1]] on a two-dimensional array. *)
Definition np_last_row (a : ndarray) : res (list fnum) :=
  match a with
  | Arr2 rs => iloc_last rs
  | Arr1 _ => Raise IndexError
  end.

Definition loc := nat.
Definition heap := list ndarray.

(** Locations only come from [alloc], so the default is never read. *)
Definition deref (h : heap) (l : loc) : ndarray := nth l h (Arr2 []).

Definition alloc (h : heap) (a : ndarray) : loc * heap := (length h, h ++ [a]).

Fixpoint set_nth {A : Type} (l : list A) (n : nat) (a : A) : list A :=
  match l, n with
  | [], _ => []
  | _ :: l', O => a :: l'
  | x :: l', S n' => x :: set_nth l' n' a
  end.

(** In-place assignment to the array object at [l]. *)
Definition store (h : heap) (l : loc) (a : ndarray) : heap := set_nth h l a.

(** [np.roll(xs, shift)] on a flat array: element [i] moves to
    [(i + shift) mod n]. *)
Definition np_roll {A : Type} (xs : list A) (shift : Z) : list A :=
  let n := length xs in
  match n with
  | O => xs
  | _ => let s := Z.to_nat (Z.modulo shift (Z.of_nat n)) in
         skipn (n - s)%nat xs ++ firstn (n - s)%nat xs
  end.

Fixpoint reshape {A : Type} (nrows w : nat) (xs : list A) : list (list A) :=
  match nrows with
  | O => []
  | S k => firstn w xs :: reshape k w (skipn w xs)
  end.

(** [np.roll(a, shift)] without [axis]: flatten, roll, restore the shape. *)
Definition np_roll_arr (a : ndarray) (shift : Z) : ndarray :=
  match a with
  | Arr1 xs => Arr1 (np_roll xs shift)
  | Arr2 rs => Arr2 (reshape (length rs) (length (hd [] rs))
                              (np_roll (concat rs) shift))
  end.

(** [a[0, -k:] = vals]: the slice has [min k n] elements and must have
    the length of [vals]. *)
Definition setitem_row0_tail (a : ndarray) (k : nat) (vals : list fnum)
  : res ndarray :=
  match a with
  | Arr2 (r :: rs) =>
      let n := length r in
      let start := (n - Nat.min k n)%nat in
      if Nat.eqb (length vals) (n - start)%nat
      then Ok (Arr2 ((firstn start r ++ vals) :: rs))
      else Raise ValueError
  | _ => Raise IndexError
  end.

(** ** The trained model: a random forest of regression trees *)

(** A fitted tree maps one feature vector to its leaf value. *)
Definition tree := list fnum -> R.

(** [self.model.estimators_] *)
Definition forest := list tree.

(** [tree.predict(X)]: one value per row of a two-dimensional [X]. *)
Definition tree_predict (t : tree) (X : ndarray) : res (list R) :=
  match X with
  | Arr2 rs => Ok (map t rs)
  | Arr1 _ => Raise ValueError
  end.

(** [RandomForestRegressor.predict(X)]: the mean over the estimators. *)
Definition forest_predict (f : forest) (X : ndarray) : res (list R) :=
  match X with
  | Arr2 rs => Ok (map (fun r => np_mean (map (fun t => t r) f)) rs)
  | Arr1 _ => Raise ValueError
  end.

(** [xs[0]] *)
Definition first {A : Type} (xs : list A) : res A :=
  match xs with a :: _ => Ok a | [] => Raise IndexError end.

(** ** The predictor object *)

Record predictor : Type := mkPredictor {
  model : option forest;          (* self.model *)
  data : option frame;            (* self.data *)
  features : option loc;          (* self.features, absent before prepare *)
  targets : option loc;           (* self.targets *)
  lookback_days : nat             (* self.lookback_days *)
}.

(** [self.data[...]] on [None] raises TypeError. *)
Definition get_data (st : predictor) : res frame :=
  match data st with Some fr => Ok fr | None => Raise TypeError end.

Definition get_features (st : predictor) : res loc :=
  match features st with Some l => Ok l | None => Raise AttributeError end.

(** ** [create_feature_from_prediction] (lines 160-190) *)

Definition create_feature_from_prediction (prediction : R)
    (last_real_data : row) : list fnum :=
  let p := Fin prediction in
  let new_open := p in
  let new_high := fmul p (Fin (101 / 100)) in
  let new_low := fmul p (Fin (99 / 100)) in
  let new_close := p in
  let new_volume := last_real_data Volume in
  let new_ma_5 := fdiv (fadd (fmul (last_real_data MA_5) (Fin 4)) p) (Fin 5) in
  let new_ma_10 := fdiv (fadd (fmul (last_real_data MA_10) (Fin 9)) p) (Fin 10) in
  let new_ma_20 := fdiv (fadd (fmul (last_real_data MA_20) (Fin 19)) p) (Fin 20) in
  let new_ma_30 := fdiv (fadd (fmul (last_real_data MA_30) (Fin 29)) p) (Fin 30) in
  let new_rsi := last_real_data RSI in
  let new_macd := last_real_data MACD in
  let new_macd_signal := last_real_data MACD_Signal in
  let new_macd_histogram := last_real_data MACD_Histogram in
  let new_bb_upper := last_real_data BB_Upper in
  let new_bb_lower := last_real_data BB_Lower in
  let new_bb_width := last_real_data BB_Width in
  let new_price_change :=
    fdiv (fsub p (last_real_data Close)) (last_real_data Close) in
  let new_volume_change := last_real_data Volume_Change in
  let new_volatility := last_real_data Volatility in
  [new_open; new_high; new_low; new_close; new_volume;
   new_ma_5; new_ma_10; new_ma_20; new_ma_30;
   new_rsi; new_macd; new_macd_signal; new_macd_histogram;
   new_bb_upper; new_bb_lower; new_bb_width;
   new_price_change; new_volume_change; new_volatility].

(** ** [predict_future] (lines 192-252) *)

(** The locals of the [for day in range(days)] loop. *)
Record lstate : Type := mkL {
  lheap : heap;
  current_features : loc;
  last_real_data : row;
  predictions : list R;
  confidence_scores : list R
}.

(** Lines 246-250: five entries of the dict are overwritten. *)
Definition update_last_real_data (d : row) (prediction : R)
    (new_day_features : list fnum) : row :=
  let d1 := upd d Close (Fin prediction) in
  let d2 := upd d1 Open (nth 0 new_day_features NaN) in
  let d3 := upd d2 High (nth 1 new_day_features NaN) in
  let d4 := upd d3 Low (nth 2 new_day_features NaN) in
  upd d4 Volume (nth 3 new_day_features NaN).

(** One iteration of the loop, lines 229-250. *)
Definition step (f : forest) (days : nat) (s : lstate) (day : nat)
  : res lstate :=
  let cf := deref (lheap s) (current_features s) in
  ps <- forest_predict f cf ;;
  prediction <- first ps ;;
  let predictions' := predictions s ++ [prediction] in
  tree_predictions <- map_res (fun t => tps <- tree_predict t cf ;; first tps) f ;;
  let confidence_scores' :=
    confidence_scores s ++ [confidence prediction tree_predictions] in
  if Nat.ltb day (days - 1) then
    let new_day_features :=
      create_feature_from_prediction prediction (last_real_data s) in
    let '(l, h1) := alloc (lheap s)
                      (np_roll_arr cf (- Z.of_nat features_per_day)) in
    a <- setitem_row0_tail (deref h1 l) features_per_day new_day_features ;;
    let h2 := store h1 l a in
    Ok (mkL h2 l (update_last_real_data (last_real_data s) prediction
                                        new_day_features)
            predictions' confidence_scores')
  else
    Ok (mkL (lheap s) (current_features s) (last_real_data s)
            predictions' confidence_scores').

(** The state of the loop after its first [k] iterations. *)
Definition iterate (f : forest) (days k : nat) (s0 : lstate) : res lstate :=
  fold_res (step f days) (seq 0 k) s0.

(** [current_features = self.features[-1].copy().reshape(1, -1)]: the
    reshape is a view of the fresh copy, the only reference kept. *)
Definition init_current_features (st : predictor) (h : heap)
  : res (loc * heap) :=
  floc <- get_features st ;;
  last_feat <- np_last_row (deref h floc) ;;
  Ok (alloc h (Arr2 [last_feat])).

(** [future_dates = [last_date + pd.Timedelta(days=i+1) for i in range(days)]] *)
Definition future_dates_of (last_date : Z) (days : nat) : list Z :=
  map (fun i => (last_date + Z.of_nat (i + 1))%Z) (seq 0 days).

(** The result is the new heap and [None] for [(None, None, None)], or the
    triple [(predictions, confidence_scores, future_dates)]. *)
Definition predict_future (st : predictor) (h : heap) (days : nat)
  : res (heap * option (list R * list R * list Z)) :=
  match model st with
  | None => Ok (h, None)
  | Some f =>
      fr <- get_data st ;;
      last_row <- iloc_last (rows fr) ;;
      last_date <- iloc_last (index fr) ;;
      let future_dates := future_dates_of last_date days in
      lh <- init_current_features st h ;;
      let '(l, h1) := lh in
      s <- iterate f days days (mkL h1 l last_row [] []) ;;
      Ok (lheap s, Some (predictions s, confidence_scores s, future_dates))
  end.

(** ** [prepare_features] and [train_model] (lines 48-158) *)

Section Pipeline.

(** The indicator columns of lines 57-86 are assigned to [self.data]
    column by column, index-aligned with the bars: row [i] of the new
    frame is [indicator_row bars i]. *)
Variable indicator_row : list row -> nat -> row.

(** [train_test_split] followed by [RandomForestRegressor(...).fit]. *)
Variable fit : ndarray -> ndarray -> res forest.

Definition with_indicators (fr : frame) : frame :=
  mkFrame (index fr)
          (map (indicator_row (rows fr)) (seq 0 (length (rows fr)))).

Definition nan_row : row := fun _ => NaN.

(** The inner loop of lines 94-115: the fields of rows [i-lookback_days]
    to [i-1], in the order of [feature_cols]. *)
Definition feature_set (rs : list row) (lookback_days i : nat) : list fnum :=
  concat (map (fun j => map (nth j rs nan_row) feature_cols)
              (seq (i - lookback_days) lookback_days)).

(** The outer loop of lines 92-117:
    [for i in range(lookback_days, len(self.data)-1)]. *)
Definition candidates (rs : list row) (lookback_days : nat)
  : list (list fnum * fnum) :=
  map (fun i => (feature_set rs lookback_days i, nth (i + 1) rs nan_row Close))
      (seq lookback_days (length rs - 1 - lookback_days)).

(** [np.isnan(a).any(axis=1)] *)
Definition isnan_any_axis1 (a : ndarray) : res (list bool) :=
  match a with
  | Arr2 rs => Ok (map (existsb isnan) rs)
  | Arr1 _ => Raise AxisError
  end.

(** [a[mask]] along the first axis. *)
Definition mask_select {A : Type} (mask : list bool) (xs : list A) : list A :=
  map snd (filter fst (combine mask xs)).

Definition prepare_features (st : predictor) (h : heap) (lookback_days : nat)
  : res (predictor * heap * bool) :=
  let st1 := mkPredictor (model st) (data st) (features st) (targets st)
                         lookback_days in
  match data st with
  | None => Ok (st1, h, false)
  | Some fr0 =>
      let fr := with_indicators fr0 in
      let cs := candidates (rows fr) lookback_days in
      let feats := np_array2 (map fst cs) in
      let targs := map snd cs in
      nan_rows <- isnan_any_axis1 feats ;;
      let valid := map (fun '(a, b) => negb a && negb (isnan b))
                       (combine nan_rows targs) in
      let '(lf, h1) := alloc h (Arr2 (mask_select valid (map fst cs))) in
      let '(lt, h2) := alloc h1 (Arr1 (mask_select valid targs)) in
      Ok (mkPredictor (model st) (Some fr) (Some lf) (Some lt) lookback_days,
          h2, true)
  end.

Definition train_model (st : predictor) (h : heap) : res (predictor * bool) :=
  match features st with
  | None => Ok (st, false)
  | Some lf =>
      let X := deref h lf in
      if Nat.eqb (np_len X) 0 then Ok (st, false)
      else
        lt <- match targets st with
              | Some lt => Ok lt | None => Raise AttributeError end ;;
        m <- fit X (deref h lt) ;;
        Ok (mkPredictor (Some m) (data st) (features st) (targets st)
                        (lookback_days st), true)
  end.


End Pipeline.

(** ** RSI(14), lines 62-67 of [prepare_features] *)

Module Indicators.

(** [series.diff()] *)
Definition diff (xs : list fnum) : list fnum :=
  map (fun i => match i with
                | O => NaN
                | S k => fsub (nth i xs NaN) (nth k xs NaN)
                end) (seq 0 (length xs)).

(** [series.where(cond, 0)] *)
Definition where0 (cond : fnum -> bool) (xs : list fnum) : list fnum :=
  map (fun x => if cond x then x else Fin 0) xs.

Definition fsum (xs : list fnum) : fnum := fold_right fadd (Fin 0) xs.

(** [series.rolling(window=w).mean()], with pandas' default
    [min_periods = w]: NaN until [w] values exist or when the window holds
    a NaN. *)
Definition rolling_mean (w : nat) (xs : list fnum) : list fnum :=
  map (fun i =>
         if Nat.ltb (i + 1) w then NaN
         else let win := firstn w (skipn (i + 1 - w) xs) in
              if existsb isnan win then NaN
              else fdiv (fsum win) (Fin (INR w)))
      (seq 0 (length xs)).

(** Element-wise binary operation on two aligned series. *)
Definition zip_with (op : fnum -> fnum -> fnum) (xs ys : list fnum)
  : list fnum :=
  map (fun '(x, y) => op x y) (combine xs ys).

(** [gain = (delta.where(delta > 0, 0)).rolling(window=14).mean()] *)
Definition gain (close : list fnum) : list fnum :=
  rolling_mean 14 (where0 (fun d => flt (Fin 0) d) (diff close)).

(** [loss = (-delta.where(delta < 0, 0)).rolling(window=14).mean()] *)
Definition loss (close : list fnum) : list fnum :=
  rolling_mean 14 (map fneg (where0 (fun d => flt d (Fin 0)) (diff close))).

(** [rs = gain / loss]; [self.data['RSI'] = 100 - (100 / (1 + rs))] *)
Definition rsi (close : list fnum) : list fnum :=
  map (fun r => fsub (Fin 100) (fdiv (Fin 100) (fadd (Fin 1) r)))
      (zip_with fdiv (gain close) (loss close)).

(** On a series of finite closes [cs], the real value at bar [j] of
    [delta.where(delta > 0, 0)]: bar 0, whose delta is NaN, fails the test
    and becomes 0. *)
Definition up_move (cs : list R) (j : nat) : R :=
  match j with
  | O => 0
  | S k => let d := nth j cs 0 + - nth k cs 0 in
           if Rlt_dec 0 d then d else 0
  end.

(** The same for [-delta.where(delta < 0, 0)]. *)
Definition down_move (cs : list R) (j : nat) : R :=
  - match j with
    | O => 0
    | S k => let d := nth j cs 0 + - nth k cs 0 in
             if Rlt_dec d 0 then d else 0
    end.

End Indicators.

(** ** The forecast loop on array contents

    The same loop as [step], with the one-row array [current_features]
    replaced by its contents; the proofs show that [step] computes it. *)

Record pstate : Type := mkP {
  prow : list fnum;
  plrd : row;
  ppreds : list R;
  pconfs : list R
}.

Definition pstep (f : forest) (days : nat) (v : pstate) (day : nat)
  : res pstate :=
  let r := prow v in
  let prediction := np_mean (map (fun t => t r) f) in
  let tree_predictions := map (fun t => t r) f in
  let preds' := ppreds v ++ [prediction] in
  let confs' := pconfs v ++ [confidence prediction tree_predictions] in
  if Nat.ltb day (days - 1) then
    let nd := create_feature_from_prediction prediction (plrd v) in
    let rolled := np_roll r (- Z.of_nat features_per_day) in
    let n := length r in
    let start := (n - Nat.min features_per_day n)%nat in
    if Nat.eqb (length nd) (n - start)
    then Ok (mkP (firstn start rolled ++ nd)
                 (update_last_real_data (plrd v) prediction nd) preds' confs')
    else Raise ValueError
  else Ok (mkP r (plrd v) preds' confs').

Definition piterate (f : forest) (days k : nat) (v : pstate) : res pstate :=
  fold_res (pstep f days) (seq 0 k) v.

(** The heap loop state [s] holds, in a cell allocated after [h0], the
    one-row array whose contents are those of [v]; the cells of [h0] are
    untouched. *)
Definition loop_inv (h0 : heap) (s : lstate) (v : pstate) : Prop :=
  (length h0 <= current_features s)%nat /\
  (current_features s < length (lheap s))%nat /\
  firstn (length h0) (lheap s) = h0 /\
  deref (lheap s) (current_features s) = Arr2 [prow v] /\
  last_real_data s = plrd v /\
  predictions s = ppreds v /\
  confidence_scores s = pconfs v.

(** A predictor after [prepare_features] and a successful [train_model]:
    a model, a non-empty frame, and a last feature vector of
    [lookback_days * features_per_day] entries with [lookback_days >= 1]
    (scikit-learn refuses to fit on zero features). *)
Definition ready (st : predictor) (h : heap) : Prop :=
  model st <> None /\
  (exists fr, data st = Some fr /\ rows fr <> [] /\ index fr <> []) /\
  (1 <= lookback_days st)%nat /\
  (exists floc lf, features st = Some floc /\
     np_last_row (deref h floc) = Ok lf /\
     length lf = (lookback_days st * features_per_day)%nat).

(** [current_features[0]] *)
Definition current_row (s : lstate) : list fnum :=
  match deref (lheap s) (current_features s) with
  | Arr2 (r :: _) => r
  | _ => []
  end.

(** [current_features[0, -features_per_day:]]: the newest day. *)
Definition newest_day (r : list fnum) : list fnum :=
  skipn (length r - features_per_day) r.

Fixpoint col_pos_in (c : col) (cs : list col) : nat :=
  match cs with
  | [] => O
  | c' :: cs' => if col_eq_dec c c' then O else S (col_pos_in c cs')
  end.

(** The field [c] of one day of a feature vector. *)
Definition day_field (d : list fnum) (c : col) : fnum :=
  nth (col_pos_in c feature_cols) d NaN.

(** The entries of [last_real_data] rewritten at lines 246-250. *)
Definition is_raw (c : col) : bool :=
  match c with Open | High | Low | Close | Volume => true | _ => false end.

(** ** A trained predictor over one bar, used as concrete input

    One bar with close 20 and volume 1000 (all other columns 10), a
    lookback of one day, and a forest of one tree that always predicts 50.
    Cell 0 of the heap is [self.features], cell 1 [self.targets]. *)

Definition ex_row : row :=
  fun c => match c with
           | Close => Fin 20
           | Volume => Fin 1000
           | _ => Fin 10
           end.

Definition ex_frame : frame := mkFrame [0%Z] [ex_row].

Definition ex_features_row : list fnum := repeat (Fin 1) features_per_day.

Definition ex_heap : heap := [Arr2 [ex_features_row]; Arr1 [Fin 20]].

Definition ex_forest : forest := [fun _ => 50].

Definition ex_predictor : predictor :=
  mkPredictor (Some ex_forest) (Some ex_frame) (Some 0%nat) (Some 1%nat) 1.

(** ** The remaining indicator columns of [prepare_features] (lines 57-86)

    Every column is a pandas series over the bars.  [ewm] is defined on
    series of finite reals: the closes of the data source hold no NaN, and
    [exp1 - exp2] and the signal line are then finite as well. *)

Module Columns.
Import Indicators.



(** [series.pct_change()], computed by pandas as
    [series / series.shift(1) - 1]; the forward fill of its default
    [fill_method] has nothing to fill on the NaN-free close and volume
    series. *)
Definition pct_change (xs : list fnum) : list fnum :=
  map (fun i => match i with
                | O => NaN
                | S k => fsub (fdiv (nth i xs NaN) (nth k xs NaN)) (Fin 1)
                end) (seq 0 (length xs)).

(** [series.ewm(span=s).mean()] with pandas' defaults [adjust=True],
    [min_periods=0]: at bar [t], the average of bars [0 .. t] weighted by
    [(1 - alpha)^age], [alpha = 2 / (s + 1)]. *)
Definition ewm_at (alpha : R) (xs : list R) (t : nat) : R :=
  rsum (map (fun i => (1 - alpha) ^ i * nth (t - i) xs 0) (seq 0 (S t))) /
  rsum (map (fun i => (1 - alpha) ^ i) (seq 0 (S t))).

Definition ewm_mean (span : R) (xs : list R) : list R :=
  map (ewm_at (2 / (span + 1)) xs) (seq 0 (length xs)).

Definition sub_series (xs ys : list R) : list R :=
  map (fun '(a, b) => a - b) (combine xs ys).


(** [exp1 - exp2], [MACD.ewm(span=9).mean()] and their difference, on the
    finite closes [cs]. *)
Definition macd (cs : list R) : list R :=
  sub_series (ewm_mean 12 cs) (ewm_mean 26 cs).

Definition macd_signal (cs : list R) : list R := ewm_mean 9 (macd cs).

Definition macd_histogram (cs : list R) : list R :=
  sub_series (macd cs) (macd_signal cs).







End Columns.

(** ** [get_stock_data] (lines 23-46) *)

(** [s.endswith(suf)] *)
Fixpoint ends_with (suf s : String.string) : bool :=
  String.eqb s suf ||
  match s with
  | String.EmptyString => false
  | String.String _ s' => ends_with suf s'
  end.

(** The ticker of lines 26-32. *)
Definition ticker_of (stock_code : String.string) : String.string :=
  if ends_with ".SZ" stock_code || ends_with ".SS" stock_code then stock_code
  else if String.prefix "6" stock_code then String.append stock_code ".SS"
  else String.append stock_code ".SZ".

Section Fetch.

(** [yf.Ticker(ticker).history(period=period)]: a frame, or an exception. *)
Variable fetch : String.string -> String.string -> res frame.

(** The whole body is inside [try ... except Exception]: an exception of
    the download gives [False] and leaves [self.data] as it was. *)
Definition get_stock_data (st : predictor) (stock_code period : String.string)
  : predictor * bool :=
  match fetch (ticker_of stock_code) period with
  | Raise _ => (st, false)
  | Ok fr =>
      (mkPredictor (model st) (Some fr) (features st) (targets st)
                   (lookback_days st),
       negb (Nat.eqb (length (rows fr)) 0))
  end.

End Fetch.

(** ** The report of [analyze_stock] (lines 373-407) *)

(** The label [confidence_level]. *)
Inductive conf_level : Type := LevelHigh | LevelMedium | LevelLow.

Definition confidence_level (conf : R) : conf_level :=
  if Rlt_dec (7 / 10) conf then LevelHigh
  else if Rlt_dec (5 / 10) conf then LevelMedium
  else LevelLow.

(** The labels of lines 393-402, from "Strong Bullish" to "Strong
    Bearish". *)
Inductive trend : Type :=
| StrongBullish | Bullish | Sideways | Bearish | StrongBearish.

Definition trend_of (final_change_pct : fnum) : trend :=
  if flt (Fin 5) final_change_pct then StrongBullish
  else if flt (Fin 2) final_change_pct then Bullish
  else if flt (Fin (-2)) final_change_pct then Sideways
  else if flt (Fin (-5)) final_change_pct then Bearish
  else StrongBearish.

(** The labels in their order, from the most bearish to the most bullish. *)
Definition trend_rank (t : trend) : nat :=
  match t with
  | StrongBearish => 0 | Bearish => 1 | Sideways => 2
  | Bullish => 3 | StrongBullish => 4
  end.

(** [predictions[i-1] if i > 0 else current_price] *)
Definition prev_price (current_price : fnum) (predictions : list R) (i : nat)
  : fnum :=
  match i with
  | O => current_price
  | S k => Fin (nth k predictions 0)
  end.

Record day_line : Type := mkLine {
  dl_pred : R;
  dl_change : fnum;
  dl_change_pct : fnum;
  dl_total_change : fnum;
  dl_total_change_pct : fnum;
  dl_up : bool;              (* trend_icon is the up arrow *)
  dl_level : conf_level
}.

(** One iteration of the loop of lines 381-391. *)
Definition make_line (current_price : fnum) (predictions : list R) (i : nat)
    (pred conf : R) : day_line :=
  let prev := prev_price current_price predictions i in
  let day_change := fsub (Fin pred) prev in
  let day_change_pct := fmul (fdiv day_change prev) (Fin 100) in
  let total_change := fsub (Fin pred) current_price in
  let total_change_pct := fmul (fdiv total_change current_price) (Fin 100) in
  mkLine pred day_change day_change_pct total_change total_change_pct
         (flt (Fin 0) day_change) (confidence_level conf).

Record report : Type := mkReport {
  rp_current_price : fnum;
  rp_lines : list day_line;
  rp_final_change : fnum;
  rp_final_change_pct : fnum;
  rp_trend : trend
}.

(** Lines 376-405, for a non-empty [predictions]. *)
Definition make_report (current_price : fnum) (predictions confidence_scores : list R)
  : report :=
  let lines := map (fun i => make_line current_price predictions i
                                       (nth i predictions 0)
                                       (nth i confidence_scores 0))
                   (seq 0 (length (combine predictions confidence_scores))) in
  let final_change := fsub (Fin (last predictions 0)) current_price in
  let final_change_pct := fmul (fdiv final_change current_price) (Fin 100) in
  mkReport current_price lines final_change final_change_pct
           (trend_of final_change_pct).

(** [analyze_stock] (lines 355-421). The charts of lines 410-421 only
    draw, inside [try ... except Exception], and are left out; the result
    is the predictor, the heap and the printed report, if any. *)
Definition analyze_stock (fetch : String.string -> String.string -> res frame)
    (indicator_row : list row -> nat -> row)
    (fit : ndarray -> ndarray -> res forest)
    (st : predictor) (h : heap) (stock_code period : String.string)
    (predict_days : nat) : res (predictor * heap * option report) :=
  let '(st1, ok1) := get_stock_data fetch st stock_code period in
  if negb ok1 then Ok (st1, h, None) else
  r1 <- prepare_features indicator_row st1 h 30 ;;
  let '(st2, h2, ok2) := r1 in
  if negb ok2 then Ok (st2, h2, None) else
  r2 <- train_model fit st2 h2 ;;
  let '(st3, ok3) := r2 in
  if negb ok3 then Ok (st3, h2, None) else
  r3 <- predict_future st3 h2 predict_days ;;
  let '(h3, out) := r3 in
  match out with
  | Some (predictions, confidence_scores, _) =>
      match predictions with
      | [] => Ok (st3, h3, None)
      | _ :: _ =>
          fr <- get_data st3 ;;
          last_row <- iloc_last (rows fr) ;;
          Ok (st3, h3, Some (make_report (last_row Close) predictions
                                         confidence_scores))
      end
  | None => Ok (st3, h3, None)
  end.

(** ** [main] (lines 423-443) *)

(** [max(1, min(90, int(...)))], or 5 when [int] raises ([None]). *)
Definition clamp_days (parsed : option Z) : Z :=
  match parsed with
  | Some n => Z.max 1 (Z.min 90 n)
  | None => 5
  end.

(** [StockPredictor()] *)
Definition new_predictor : predictor := mkPredictor None None None None 30.

Definition main (fetch : String.string -> String.string -> res frame)
    (indicator_row : list row -> nat -> row)
    (fit : ndarray -> ndarray -> res forest)
    (stock_code : String.string) (parsed : option Z)
  : res (predictor * heap * option report) :=
  analyze_stock fetch indicator_row fit new_predictor [] stock_code "1y"
                (Z.to_nat (clamp_days parsed)).

(** ** The confidence band of [plot_predictions] (lines 272-276) *)

(** [(lower_bound, upper_bound)] *)
Definition conf_band (pred conf : R) : R * R :=
  (pred * (1 - 15 / 100 * (1 - conf)), pred * (1 + 15 / 100 * (1 - conf))).

(** * Proofs *)

(** ** Confidence *)

Lemma rsum_repeat (x : R) (n : nat) : rsum (repeat x n) = INR n * x.
Proof.
  induction n as [|n IH]; simpl; [ring|].
  rewrite IH. destruct n; simpl; ring.
Qed.

Lemma np_mean_repeat (x : R) (n : nat) : (0 < n)%nat ->
  np_mean (repeat x n) = x.
Proof.
  intros Hn. unfold np_mean. rewrite rsum_repeat, repeat_length.
  field. apply not_0_INR. lia.
Qed.

Lemma np_std_repeat (x : R) (n : nat) : (0 < n)%nat ->
  np_std (repeat x n) = 0.
Proof.
  intros Hn. unfold np_std. rewrite (np_mean_repeat x n Hn).
  replace (map (fun y => (y - x) * (y - x)) (repeat x n)) with (repeat 0 n).
  - rewrite (np_mean_repeat 0 n Hn). apply sqrt_0.
  - induction n as [|n IH]; simpl; [reflexivity|].
    destruct n; simpl.
    + f_equal. ring.
    + f_equal; [ring|]. apply IH. lia.
Qed.

Lemma all_equal_repeat (tps : list R) :
  tps <> [] -> (forall x y, In x tps -> In y tps -> x = y) ->
  exists x, tps = repeat x (length tps).
Proof.
  intros Hne Heq. destruct tps as [|x rest]; [congruence|].
  exists x. simpl. f_equal.
  assert (Hall : forall y, In y rest -> y = x)
    by (intros y Hy; apply Heq; simpl; auto).
  clear Heq Hne. induction rest as [|y rest IH]; simpl; [reflexivity|].
  rewrite (Hall y (or_introl eq_refl)). f_equal.
  apply IH. intros z Hz. apply Hall. simpl. auto.
Qed.

(** C2: the confidence score is [clamp(1 - std/|p|, 0, 0.95)] for a
    non-zero point estimate, lies in [[0, 0.95]], is 0 for a zero point
    estimate, and is 0.95 when all ensemble members agree exactly. *)
Theorem confidence_spec (p : R) (tree_predictions : list R) :
  (p <> 0 ->
   confidence p tree_predictions
   = Rmin (Rmax (1 - np_std tree_predictions / Rabs p) 0) (95 / 100)) /\
  (0 <= confidence p tree_predictions <= 95 / 100) /\
  (p = 0 -> confidence p tree_predictions = 0) /\
  (tree_predictions <> [] ->
   (forall x y, In x tree_predictions -> In y tree_predictions -> x = y) ->
   p <> 0 -> confidence p tree_predictions = 95 / 100).
Proof.
  unfold confidence. repeat split.
  - intros Hp. destruct (Req_EM_T p 0); [contradiction|reflexivity].
  - apply Rmin_glb; [apply Rmax_r | lra].
  - apply Rmin_r.
  - intros ->. destruct (Req_EM_T 0 0) as [_|n]; [|contradiction].
    rewrite Rmax_left by lra. apply Rmin_left. lra.
  - intros Hne Heq Hp. destruct (Req_EM_T p 0); [contradiction|].
    destruct (all_equal_repeat _ Hne Heq) as [x Hx]. rewrite Hx.
    rewrite np_std_repeat.
    + unfold Rdiv. rewrite Rmult_0_l, Rminus_0_r.
      rewrite Rmax_left by lra. apply Rmin_right. lra.
    + destruct tree_predictions; [congruence|simpl; lia].
Qed.

(** ** Arrays *)

Lemma np_roll_length {A : Type} (xs : list A) (sh : Z) :
  length (np_roll xs sh) = length xs.
Proof.
  unfold np_roll. destruct (length xs) as [|n] eqn:E; [lia|].
  rewrite length_app, length_skipn, length_firstn. lia.
Qed.

Lemma np_roll_arr_row (r : list fnum) (sh : Z) :
  np_roll_arr (Arr2 [r]) sh = Arr2 [np_roll r sh].
Proof.
  simpl. rewrite app_nil_r, firstn_all2; [reflexivity|].
  rewrite np_roll_length. lia.
Qed.

Lemma modulo_neg_width (n : nat) : (19 <= n)%nat ->
  (Z.modulo (-19) (Z.of_nat n) = Z.of_nat (n - 19))%Z.
Proof.
  intros Hn. symmetry. apply (Z.mod_unique _ _ (-1)); lia.
Qed.

(** Rolling left by one day and keeping all but the last day drops the
    oldest day. *)
Lemma roll_drop_oldest (r : list fnum) :
  (features_per_day <= length r)%nat ->
  firstn (length r - features_per_day) (np_roll r (- Z.of_nat features_per_day))
  = skipn features_per_day r.
Proof.
  unfold features_per_day. intros Hn. unfold np_roll.
  destruct (length r) as [|n] eqn:E; [lia|].
  rewrite <- E. change (- Z.of_nat 19)%Z with (-19)%Z.
  rewrite (modulo_neg_width (length r)) by lia.
  rewrite Nat2Z.id.
  replace (length r - (length r - 19))%nat with 19%nat by lia.
  rewrite firstn_app, length_skipn, firstn_all2 by (rewrite length_skipn; lia).
  replace (length r - 19 - (length r - 19))%nat with 0%nat by lia.
  simpl. apply app_nil_r.
Qed.

Lemma deref_alloc (h : heap) (a : ndarray) : deref (h ++ [a]) (length h) = a.
Proof. unfold deref. apply nth_middle. Qed.

Lemma store_alloc (h : heap) (a b : ndarray) :
  store (h ++ [a]) (length h) b = h ++ [b].
Proof. unfold store. induction h as [|x h IH]; simpl; [reflexivity|]. now rewrite IH. Qed.

Lemma deref_prefix (h h' : heap) (l : loc) :
  firstn (length h) h' = h -> (l < length h)%nat -> deref h' l = deref h l.
Proof.
  intros Hp Hl. unfold deref. rewrite <- Hp.
  rewrite nth_firstn. destruct (Nat.ltb_spec l (length h)); [reflexivity|lia].
Qed.

Lemma prefix_length (h h' : heap) :
  firstn (length h) h' = h -> (length h <= length h')%nat.
Proof.
  intros Hp. apply (f_equal (@length _)) in Hp. rewrite length_firstn in Hp. lia.
Qed.

Lemma prefix_app (h h' : heap) (a : ndarray) :
  firstn (length h) h' = h -> firstn (length h) (h' ++ [a]) = h.
Proof.
  intros Hp. rewrite firstn_app.
  replace (length h - length h')%nat with 0%nat
    by (pose proof (prefix_length _ _ Hp); lia).
  rewrite app_nil_r. exact Hp.
Qed.

Lemma map_res_trees (f : forest) (r : list fnum) :
  map_res (fun t => tps <- tree_predict t (Arr2 [r]) ;; first tps) f
  = Ok (map (fun t => t r) f).
Proof.
  induction f as [|t f IH]; [reflexivity|].
  cbn [map_res]. rewrite IH. reflexivity.
Qed.

(** ** The heap loop computes the loop on contents *)

Lemma step_refines (f : forest) (days : nat) (h0 : heap) (s : lstate)
    (v : pstate) (day : nat) :
  loop_inv h0 s v ->
  match pstep f days v day with
  | Ok v' => exists s', step f days s day = Ok s' /\ loop_inv h0 s' v'
  | Raise e => step f days s day = Raise e
  end.
Proof.
  intros (H1 & H2 & H3 & H4 & H5 & H6 & H7).
  destruct s as [hp cur d ps cs], v as [r d' ps' cs']; simpl in *; subst.
  unfold step, pstep; cbn [lheap current_features last_real_data
                           predictions confidence_scores prow plrd ppreds pconfs].
  rewrite H4. cbn [forest_predict map bind first].
  rewrite map_res_trees. cbn [bind].
  destruct (Nat.ltb day (days - 1)).
  - unfold alloc. rewrite np_roll_arr_row, deref_alloc.
    unfold setitem_row0_tail. rewrite np_roll_length.
    destruct (Nat.eqb _ _).
    + eexists. split; [reflexivity|].
      pose proof (prefix_length _ _ H3).
      cbn [lheap current_features last_real_data predictions confidence_scores
           prow plrd ppreds pconfs].
      rewrite store_alloc. repeat split; cbn [lheap current_features].
      * lia.
      * rewrite length_app. simpl. lia.
      * apply prefix_app. exact H3.
      * apply deref_alloc.
    + reflexivity.
  - eexists. split; [reflexivity|]. repeat split; assumption.
Qed.

Lemma fold_refines (f : forest) (days : nat) (h0 : heap) (l : list nat) :
  forall s v, loop_inv h0 s v ->
  match fold_res (pstep f days) l v with
  | Ok v' => exists s', fold_res (step f days) l s = Ok s' /\ loop_inv h0 s' v'
  | Raise e => fold_res (step f days) l s = Raise e
  end.
Proof.
  induction l as [|day l IH]; intros s v Hinv; simpl.
  - exists s. split; [reflexivity|exact Hinv].
  - pose proof (step_refines f days h0 s v day Hinv) as Hs.
    destruct (pstep f days v day) as [v1|e]; simpl.
    + destruct Hs as (s1 & -> & Hinv1). simpl. apply IH. exact Hinv1.
    + rewrite Hs. reflexivity.
Qed.

Lemma iterate_refines (f : forest) (days k : nat) (h0 : heap) (s : lstate)
    (v : pstate) :
  loop_inv h0 s v ->
  match piterate f days k v with
  | Ok v' => exists s', iterate f days k s = Ok s' /\ loop_inv h0 s' v'
  | Raise e => iterate f days k s = Raise e
  end.
Proof. apply fold_refines. Qed.

Lemma iloc_last_nonempty {A : Type} (l : list A) :
  l <> [] -> exists a, iloc_last l = Ok a.
Proof.
  intros Hne. unfold iloc_last. destruct (rev l) as [|a r] eqn:E.
  - exfalso. apply Hne. apply (f_equal (@rev A)) in E.
    rewrite rev_involutive in E. exact E.
  - eauto.
Qed.

Lemma np_last_row_cell (a : ndarray) (lf : list fnum) :
  np_last_row a = Ok lf -> exists rs, a = Arr2 rs /\ rs <> [].
Proof.
  destruct a as [xs|rs]; simpl; [discriminate|].
  unfold iloc_last. intros E. exists rs. split; [reflexivity|].
  intros ->. discriminate.
Qed.

Lemma init_current_features_ok (st : predictor) (h : heap) (l : loc)
    (h1 : heap) :
  init_current_features st h = Ok (l, h1) ->
  exists floc lf, features st = Some floc /\ (floc < length h)%nat /\
    np_last_row (deref h floc) = Ok lf /\
    l = length h /\ h1 = h ++ [Arr2 [lf]].
Proof.
  unfold init_current_features, get_features.
  destruct (features st) as [floc|]; simpl; [|discriminate].
  destruct (np_last_row (deref h floc)) as [lf|e] eqn:E; simpl; [|discriminate].
  intros Heq. injection Heq as <- <-. exists floc, lf.
  repeat split; try reflexivity; try assumption.
  destruct (Nat.ltb_spec floc (length h)) as [Hlt|Hge]; [exact Hlt|].
  exfalso. unfold deref in E. rewrite nth_overflow in E by exact Hge.
  discriminate.
Qed.

Lemma init_loop_inv (h : heap) (lf : list fnum) (last_row : row) :
  loop_inv h (mkL (h ++ [Arr2 [lf]]) (length h) last_row [] [])
             (mkP lf last_row [] []).
Proof.
  repeat split; simpl.
  - lia.
  - rewrite length_app. simpl. lia.
  - rewrite firstn_app, Nat.sub_diag, firstn_all. simpl. apply app_nil_r.
  - apply deref_alloc.
Qed.

Lemma predict_future_refines (st : predictor) (h : heap) (days : nat)
    (f : forest) (fr : frame) (last_row : row) (last_date : Z) (l : loc)
    (h1 : heap) :
  model st = Some f -> data st = Some fr ->
  iloc_last (rows fr) = Ok last_row -> iloc_last (index fr) = Ok last_date ->
  init_current_features st h = Ok (l, h1) ->
  exists lf, h1 = h ++ [Arr2 [lf]] /\ l = length h /\
  match piterate f days days (mkP lf last_row [] []) with
  | Ok v => exists h', firstn (length h) h' = h /\
      predict_future st h days
      = Ok (h', Some (ppreds v, pconfs v, future_dates_of last_date days))
  | Raise e => predict_future st h days = Raise e
  end.
Proof.
  intros Hm Hd Hr Hi Hinit.
  destruct (init_current_features_ok _ _ _ _ Hinit)
    as (floc & lf & _ & _ & _ & -> & ->).
  exists lf. split; [reflexivity|]. split; [reflexivity|].
  pose proof (iterate_refines f days days h _ _ (init_loop_inv h lf last_row))
    as Hit.
  unfold predict_future. rewrite Hm. unfold get_data. rewrite Hd.
  cbn [bind]. rewrite Hr, Hi. cbn [bind]. rewrite Hinit. cbn [bind].
  destruct (piterate f days days (mkP lf last_row [] [])) as [v|e].
  - destruct Hit as (s' & -> & (_ & _ & Hp & _ & _ & Hps & Hcs)).
    exists (lheap s'). split; [exact Hp|]. cbn [bind]. now rewrite Hps, Hcs.
  - rewrite Hit. reflexivity.
Qed.

(** ** The loop on contents *)

Lemma fold_res_app {A S : Type} (f : S -> A -> res S) (l1 l2 : list A) (s : S) :
  fold_res f (l1 ++ l2) s = (s' <- fold_res f l1 s ;; fold_res f l2 s').
Proof.
  revert s. induction l1 as [|a l1 IH]; intros s; simpl; [reflexivity|].
  destruct (f s a); simpl; [apply IH|reflexivity].
Qed.

Lemma piterate_S (f : forest) (days k : nat) (v0 : pstate) :
  piterate f days (S k) v0 = (v <- piterate f days k v0 ;; pstep f days v k).
Proof.
  unfold piterate. rewrite seq_S, fold_res_app. simpl.
  destruct (fold_res (pstep f days) (seq 0 k) v0); simpl; [|reflexivity].
  destruct (pstep f days a k); reflexivity.
Qed.

Lemma create_feature_length (p : R) (d : row) :
  length (create_feature_from_prediction p d) = features_per_day.
Proof. reflexivity. Qed.

Lemma pstep_preds (f : forest) (days : nat) (v v' : pstate) (day : nat) :
  pstep f days v day = Ok v' ->
  ppreds v' = ppreds v ++ [np_mean (map (fun t => t (prow v)) f)] /\
  pconfs v' = pconfs v ++ [confidence (np_mean (map (fun t => t (prow v)) f))
                                      (map (fun t => t (prow v)) f)].
Proof.
  unfold pstep. destruct (Nat.ltb day (days - 1)).
  - destruct (Nat.eqb _ _); [|discriminate].
    intros E. injection E as <-. simpl. split; reflexivity.
  - intros E. injection E as <-. simpl. split; reflexivity.
Qed.

(** One step on a vector of at least one day: the oldest day is dropped
    and the synthetic day appended. *)
Lemma pstep_wide (f : forest) (days : nat) (v : pstate) (day : nat) :
  (features_per_day <= length (prow v))%nat ->
  let p := np_mean (map (fun t => t (prow v)) f) in
  let nd := create_feature_from_prediction p (plrd v) in
  pstep f days v day =
  Ok (mkP (if Nat.ltb day (days - 1) then skipn features_per_day (prow v) ++ nd
           else prow v)
          (if Nat.ltb day (days - 1) then update_last_real_data (plrd v) p nd
           else plrd v)
          (ppreds v ++ [p])
          (pconfs v ++ [confidence p (map (fun t => t (prow v)) f)])).
Proof.
  intros Hw p nd. unfold pstep.
  destruct (Nat.ltb day (days - 1)); [|reflexivity].
  rewrite create_feature_length.
  replace (Nat.min features_per_day (length (prow v))) with features_per_day
    by (symmetry; apply Nat.min_l; exact Hw).
  replace (length (prow v) - (length (prow v) - features_per_day))%nat
    with features_per_day by lia.
  rewrite Nat.eqb_refl, roll_drop_oldest by exact Hw. reflexivity.
Qed.

Lemma piterate_lengths (f : forest) (days : nat) (v0 : pstate) (k : nat)
    (v : pstate) :
  piterate f days k v0 = Ok v ->
  length (ppreds v) = (length (ppreds v0) + k)%nat /\
  length (pconfs v) = (length (pconfs v0) + k)%nat.
Proof.
  revert v. induction k as [|k IH]; intros v Hk.
  - unfold piterate in Hk. simpl in Hk. injection Hk as <-. lia.
  - rewrite piterate_S in Hk.
    destruct (piterate f days k v0) as [v1|e]; simpl in Hk; [|discriminate].
    destruct (pstep_preds _ _ _ _ _ Hk) as [-> ->].
    destruct (IH v1 eq_refl) as [IH1 IH2].
    rewrite !length_app, IH1, IH2. simpl. lia.
Qed.

Lemma piterate_wide (f : forest) (days : nat) (v0 : pstate) (k : nat) :
  (features_per_day <= length (prow v0))%nat ->
  exists v, piterate f days k v0 = Ok v /\ length (prow v) = length (prow v0).
Proof.
  intros Hw. induction k as [|k (v & Hv & Hlen)].
  - exists v0. split; reflexivity.
  - rewrite piterate_S, Hv. cbn [bind].
    rewrite pstep_wide by lia. eexists. split; [reflexivity|]. cbn [prow].
    destruct (Nat.ltb k (days - 1)); [|exact Hlen].
    rewrite length_app, length_skipn, create_feature_length. lia.
Qed.



(** ** The stages before the loop *)

Lemma predict_future_stages (st : predictor) (h : heap) (days : nat)
    (f : forest) :
  model st = Some f ->
  (exists fr last_row last_date l h1,
     data st = Some fr /\ iloc_last (rows fr) = Ok last_row /\
     iloc_last (index fr) = Ok last_date /\
     init_current_features st h = Ok (l, h1)) \/
  (exists e, predict_future st h days = Raise e).
Proof.
  intros Hm. unfold predict_future. rewrite Hm. unfold get_data.
  destruct (data st) as [fr|] eqn:E1; cbn [bind]; [|right; eauto].
  destruct (iloc_last (rows fr)) as [last_row|e] eqn:E2; cbn [bind];
    [|right; eauto].
  destruct (iloc_last (index fr)) as [last_date|e] eqn:E3; cbn [bind];
    [|right; eauto].
  destruct (init_current_features st h) as [[l h1]|e] eqn:E; cbn [bind];
    [|right; eauto].
  left. exists fr, last_row, last_date, l, h1. auto.
Qed.

Lemma ready_stages (st : predictor) (h : heap) :
  ready st h ->
  exists f fr last_row last_date lf,
    model st = Some f /\ data st = Some fr /\
    iloc_last (rows fr) = Ok last_row /\ iloc_last (index fr) = Ok last_date /\
    init_current_features st h = Ok (length h, h ++ [Arr2 [lf]]) /\
    length lf = (lookback_days st * features_per_day)%nat.
Proof.
  intros (Hm & (fr & Hd & Hr & Hi) & Hlb & (floc & lf & Hf & Hlf & Hlen)).
  destruct (model st) as [f|]; [|congruence].
  destruct (iloc_last_nonempty _ Hr) as [last_row Hlr].
  destruct (iloc_last_nonempty _ Hi) as [last_date Hld].
  exists f, fr, last_row, last_date, lf. repeat split; auto.
  unfold init_current_features, get_features. rewrite Hf. cbn [bind].
  rewrite Hlf. reflexivity.
Qed.


(** ** The dict [last_real_data] along the loop *)

Lemma update_keeps_derived (d : row) (p : R) (nd : list fnum) (c : col) :
  is_raw c = false -> update_last_real_data d p nd c = d c.
Proof.
  intros Hc. unfold update_last_real_data, upd.
  destruct c; try discriminate; reflexivity.
Qed.

Lemma update_close (d : row) (p : R) (nd : list fnum) :
  update_last_real_data d p nd Close = Fin p.
Proof. reflexivity. Qed.

Lemma update_volume (d : row) (p : R) :
  update_last_real_data d p (create_feature_from_prediction p d) Volume = Fin p.
Proof. reflexivity. Qed.

Lemma pstep_lrd (f : forest) (days : nat) (v v' : pstate) (day : nat) :
  pstep f days v day = Ok v' ->
  forall c, is_raw c = false -> plrd v' c = plrd v c.
Proof.
  unfold pstep. intros E c Hc. destruct (Nat.ltb day (days - 1)).
  - destruct (Nat.eqb _ _); [|discriminate].
    injection E as <-. simpl. apply update_keeps_derived. exact Hc.
  - injection E as <-. reflexivity.
Qed.

Lemma piterate_lrd (f : forest) (days : nat) (v0 : pstate) (k : nat) :
  forall v, piterate f days k v0 = Ok v ->
  forall c, is_raw c = false -> plrd v c = plrd v0 c.
Proof.
  induction k as [|k IH]; intros v Hk c Hc.
  - unfold piterate in Hk. simpl in Hk. injection Hk as <-. reflexivity.
  - rewrite piterate_S in Hk.
    destruct (piterate f days k v0) as [v1|e]; simpl in Hk; [|discriminate].
    rewrite (pstep_lrd _ _ _ _ _ Hk c Hc). apply IH; auto.
Qed.

Lemma inv_current_row (h0 : heap) (s : lstate) (v : pstate) :
  loop_inv h0 s v -> current_row s = prow v.
Proof. intros (_ & _ & _ & Hd & _). unfold current_row. now rewrite Hd. Qed.

(** Iteration [k] of the loop of a trained predictor, seen on the heap. *)
Lemma ready_trace (st : predictor) (h : heap) (days : nat) (f : forest)
    (fr : frame) (last_row : row) (l : loc) (h1 : heap) (k : nat) :
  ready st h -> model st = Some f -> data st = Some fr ->
  iloc_last (rows fr) = Ok last_row -> init_current_features st h = Ok (l, h1) ->
  exists s s',
    iterate f days k (mkL h1 l last_row [] []) = Ok s /\
    iterate f days (S k) (mkL h1 l last_row [] []) = Ok s' /\
    length (current_row s) = (lookback_days st * features_per_day)%nat /\
    length (predictions s) = k /\
    (forall c, is_raw c = false -> last_real_data s c = last_row c) /\
    let p := nth k (predictions s') 0 in
    let nd := create_feature_from_prediction p (last_real_data s) in
    p = np_mean (map (fun t => t (current_row s)) f) /\
    predictions s' = predictions s ++ [p] /\
    current_row s' = (if Nat.ltb k (days - 1)
                      then skipn features_per_day (current_row s) ++ nd
                      else current_row s) /\
    last_real_data s' = (if Nat.ltb k (days - 1)
                         then update_last_real_data (last_real_data s) p nd
                         else last_real_data s).
Proof.
  intros Hready Hm Hd Hr Hinit.
  destruct (init_current_features_ok _ _ _ _ Hinit)
    as (floc & lf & Hf & _ & Hlf & -> & ->).
  destruct Hready as (_ & _ & Hlb & (floc' & lf' & Hf' & Hlf' & Hlen)).
  rewrite Hf in Hf'. injection Hf' as <-. rewrite Hlf in Hlf'.
  injection Hlf' as <-.
  set (v0 := mkP lf last_row [] []).
  assert (Hw : (features_per_day <= length (prow v0))%nat)
    by (simpl; rewrite Hlen; nia).
  destruct (piterate_wide f days v0 k Hw) as (v & Ev & Hvlen).
  pose proof (piterate_S f days k v0) as ES. rewrite Ev in ES. cbn [bind] in ES.
  assert (Hw' : (features_per_day <= length (prow v))%nat) by lia.
  rewrite (pstep_wide f days v k Hw') in ES.
  pose proof (iterate_refines f days k h _ _ (init_loop_inv h lf last_row)) as R1.
  pose proof (iterate_refines f days (S k) h _ _ (init_loop_inv h lf last_row))
    as R2.
  fold v0 in R1, R2. rewrite Ev in R1. rewrite ES in R2.
  destruct R1 as (s & Hs & Hinv). destruct R2 as (s' & Hs' & Hinv').
  exists s, s'. split; [exact Hs|]. split; [exact Hs'|].
  pose proof (inv_current_row _ _ _ Hinv) as Hrow.
  pose proof (inv_current_row _ _ _ Hinv') as Hrow'.
  destruct Hinv as (_ & _ & _ & _ & Hl & Hp & _).
  destruct Hinv' as (_ & _ & _ & _ & Hl' & Hp' & _).
  destruct (piterate_lengths _ _ _ _ _ Ev) as [Hk _]. simpl in Hk.
  assert (Hnth : nth k (predictions s') 0
                 = np_mean (map (fun t => t (prow v)) f)).
  { rewrite Hp'. simpl. rewrite app_nth2 by lia.
    replace (k - length (ppreds v))%nat with 0%nat by lia. reflexivity. }
  split; [rewrite Hrow, Hvlen; exact Hlen|].
  split; [rewrite Hp; exact Hk|].
  split.
  { intros c Hc. rewrite Hl. apply (piterate_lrd _ _ _ _ _ Ev c Hc). }
  cbv zeta. rewrite Hnth, Hrow, Hrow', Hl, Hl', Hp, Hp'. simpl.
  split; [reflexivity|]. split; [reflexivity|]. split; reflexivity.
Qed.

Ltac solve_ready :=
  unfold ready; repeat split;
  [ discriminate
  | eexists; split; [reflexivity|]; split; discriminate
  | cbv; lia
  | eexists; eexists; split; [reflexivity|]; split; reflexivity ].



(** ** The synthetic day *)

Lemma newest_day_shift (r nd : list fnum) :
  (features_per_day <= length r)%nat -> length nd = features_per_day ->
  newest_day (skipn features_per_day r ++ nd) = nd.
Proof.
  intros Hr Hnd. unfold newest_day.
  rewrite length_app, length_skipn, Hnd, skipn_app, length_skipn.
  replace (length r - features_per_day + features_per_day - features_per_day
           - (length r - features_per_day))%nat with 0%nat by lia.
  rewrite skipn_all2 by (rewrite length_skipn; lia). reflexivity.
Qed.

Lemma iterate_unique (f : forest) (days k : nat) (s0 s1 s2 : lstate) :
  iterate f days k s0 = Ok s1 -> iterate f days k s0 = Ok s2 -> s1 = s2.
Proof. intros E1 E2. rewrite E1 in E2. injection E2 as E. exact E. Qed.

(** The dict [last_real_data] before iteration [k]: its derived entries
    are those of the last real bar; from the second iteration on, its
    close and its volume are both the previous prediction. *)
Lemma last_real_data_at (st : predictor) (h : heap) (days : nat) (f : forest)
    (fr : frame) (last_row : row) (l : loc) (h1 : heap) (k : nat) (s : lstate) :
  ready st h -> model st = Some f -> data st = Some fr ->
  iloc_last (rows fr) = Ok last_row -> init_current_features st h = Ok (l, h1) ->
  iterate f days k (mkL h1 l last_row [] []) = Ok s -> (k < days)%nat ->
  (forall c, is_raw c = false -> last_real_data s c = last_row c) /\
  (k = 0%nat -> last_real_data s = last_row) /\
  ((1 <= k)%nat ->
   last_real_data s Close = Fin (nth (k - 1) (predictions s) 0) /\
   last_real_data s Volume = Fin (nth (k - 1) (predictions s) 0)).
Proof.
  intros Hready Hm Hd Hr Hinit Hs Hk.
  destruct (ready_trace st h days f fr last_row l h1 k Hready Hm Hd Hr Hinit)
    as (s1 & _ & Hs1 & _ & _ & _ & Hder & _).
  rewrite (iterate_unique _ _ _ _ _ _ Hs Hs1).
  split; [exact Hder|]. split.
  - intros ->. unfold iterate in Hs1. simpl in Hs1. injection Hs1 as <-.
    reflexivity.
  - intros Hk1. destruct k as [|j]; [lia|].
    destruct (ready_trace st h days f fr last_row l h1 j Hready Hm Hd Hr Hinit)
      as (sj & sj' & _ & Hsj' & _ & _ & _ & _ & Hp & _ & Hl).
    rewrite (iterate_unique _ _ _ _ _ _ Hs1 Hsj').
    replace (S j - 1)%nat with j by lia.
    assert (Hj : Nat.ltb j (days - 1) = true) by (apply Nat.ltb_lt; lia).
    rewrite Hj in Hl. rewrite Hl. split; reflexivity.
Qed.

Lemma synthetic_day_at (st : predictor) (h : heap) (days : nat) (f : forest)
    (fr : frame) (last_row : row) (l : loc) (h1 : heap) (k : nat)
    (s s' : lstate) :
  ready st h -> model st = Some f -> data st = Some fr ->
  iloc_last (rows fr) = Ok last_row -> init_current_features st h = Ok (l, h1) ->
  iterate f days k (mkL h1 l last_row [] []) = Ok s ->
  iterate f days (S k) (mkL h1 l last_row [] []) = Ok s' ->
  (k < days - 1)%nat ->
  newest_day (current_row s')
  = create_feature_from_prediction (nth k (predictions s') 0) (last_real_data s)
  /\ nth k (predictions s') 0 = np_mean (map (fun t => t (current_row s)) f)
  /\ predictions s' = predictions s ++ [nth k (predictions s') 0].
Proof.
  intros Hready Hm Hd Hr Hinit Hs Hs' Hk.
  destruct (ready_trace st h days f fr last_row l h1 k Hready Hm Hd Hr Hinit)
    as (s1 & s1' & Hs1 & Hs1' & Hlen & _ & _ & Hp & Hps & Hrow & _).
  rewrite (iterate_unique _ _ _ _ _ _ Hs Hs1).
  rewrite (iterate_unique _ _ _ _ _ _ Hs' Hs1').
  assert (Hkb : Nat.ltb k (days - 1) = true) by (apply Nat.ltb_lt; exact Hk).
  rewrite Hkb in Hrow. rewrite Hrow.
  split; [|split; assumption].
  apply newest_day_shift; [|apply create_feature_length].
  rewrite Hlen. destruct Hready as (_ & _ & Hlb & _). nia.
Qed.

(** C4 (as the code does it): in the synthetic day built by iteration [k],
    each [MA_n] is [(MA_n * (n-1) + p) / n] with [MA_n] the last real
    bar's (the dict's moving averages are never updated), the RSI, MACD,
    Bollinger, volume-change and volatility fields are the last real
    bar's, hence those of the previous row, and the price change is taken
    against the previous row's close. *)
Theorem synthetic_day_fields (st : predictor) (h : heap) (days : nat)
    (f : forest) (fr : frame) (last_row : row) (l : loc) (h1 : heap) (k : nat)
    (s s' : lstate) :
  ready st h -> model st = Some f -> data st = Some fr ->
  iloc_last (rows fr) = Ok last_row -> init_current_features st h = Ok (l, h1) ->
  iterate f days k (mkL h1 l last_row [] []) = Ok s ->
  iterate f days (S k) (mkL h1 l last_row [] []) = Ok s' ->
  (k < days - 1)%nat ->
  let p := Fin (nth k (predictions s') 0) in
  let day := newest_day (current_row s') in
  let prev_close := if Nat.eqb k 0 then last_row Close
                    else Fin (nth (k - 1) (predictions s) 0) in
  day_field day MA_5 = fdiv (fadd (fmul (last_row MA_5) (Fin 4)) p) (Fin 5) /\
  day_field day MA_10 = fdiv (fadd (fmul (last_row MA_10) (Fin 9)) p) (Fin 10) /\
  day_field day MA_20 = fdiv (fadd (fmul (last_row MA_20) (Fin 19)) p) (Fin 20) /\
  day_field day MA_30 = fdiv (fadd (fmul (last_row MA_30) (Fin 29)) p) (Fin 30) /\
  (forall c, In c [RSI; MACD; MACD_Signal; MACD_Histogram; BB_Upper; BB_Lower;
                   BB_Width; Volume_Change; Volatility] ->
             day_field day c = last_row c) /\
  day_field day Price_Change = fdiv (fsub p prev_close) prev_close.
Proof.
  intros Hready Hm Hd Hr Hinit Hs Hs' Hk p day prev_close.
  destruct (synthetic_day_at st h days f fr last_row l h1 k s s'
              Hready Hm Hd Hr Hinit Hs Hs' Hk) as (Hday & _).
  destruct (last_real_data_at st h days f fr last_row l h1 k s
              Hready Hm Hd Hr Hinit Hs ltac:(lia)) as (Hder & H0 & H1).
  subst day p. rewrite Hday.
  unfold day_field; cbn [col_pos_in feature_cols col_eq_dec].
  repeat split;
    try (simpl; rewrite !Hder by reflexivity; reflexivity).
  - intros c Hc. simpl in Hc.
    destruct Hc as [<-|[<-|[<-|[<-|[<-|[<-|[<-|[<-|[<-|[]]]]]]]]]];
      simpl; apply Hder; reflexivity.
  - subst prev_close. simpl.
    destruct k as [|j].
    + rewrite (H0 eq_refl). reflexivity.
    + destruct (H1 ltac:(lia)) as [Hc _]. rewrite Hc. reflexivity.
Qed.

Lemma synthetic_day_fields_witness :
  exists s',
  ready ex_predictor ex_heap /\
  iterate ex_forest 3%nat 1%nat
    (mkL (ex_heap ++ [Arr2 [ex_features_row]]) 2%nat ex_row [] []) = Ok s' /\
  let p := Fin (nth 0 (predictions s') 0) in
  let day := newest_day (current_row s') in
  let prev_close := if Nat.eqb 0 0 then ex_row Close
                    else Fin (nth (0 - 1) (predictions
                      (mkL (ex_heap ++ [Arr2 [ex_features_row]]) 2%nat ex_row
                           [] [])) 0) in
  day_field day MA_5 = fdiv (fadd (fmul (ex_row MA_5) (Fin 4)) p) (Fin 5) /\
  day_field day MA_10 = fdiv (fadd (fmul (ex_row MA_10) (Fin 9)) p) (Fin 10) /\
  day_field day MA_20 = fdiv (fadd (fmul (ex_row MA_20) (Fin 19)) p) (Fin 20) /\
  day_field day MA_30 = fdiv (fadd (fmul (ex_row MA_30) (Fin 29)) p) (Fin 30) /\
  (forall c, In c [RSI; MACD; MACD_Signal; MACD_Histogram; BB_Upper; BB_Lower;
                   BB_Width; Volume_Change; Volatility] ->
             day_field day c = ex_row c) /\
  day_field day Price_Change = fdiv (fsub p prev_close) prev_close.
Proof.
  eexists. split; [solve_ready|]. split; [reflexivity|].
  apply (synthetic_day_fields ex_predictor ex_heap 3%nat ex_forest ex_frame
           ex_row 2%nat (ex_heap ++ [Arr2 [ex_features_row]]) 0%nat);
    [solve_ready | reflexivity | reflexivity | reflexivity | reflexivity
    | reflexivity | reflexivity | lia].
Defined.

Lemma fdiv_fin (a b : R) : b <> 0 -> fdiv (Fin a) (Fin b) = Fin (a / b).
Proof.
  intros Hb. unfold fdiv. destruct (Req_EM_T b 0); [contradiction|reflexivity].
Qed.

Lemma ex_prediction (r : list fnum) :
  np_mean (map (fun t => t r) ex_forest) = 50.
Proof. unfold np_mean, rsum. simpl. field. Qed.

(** The first two synthetic days of a three-day forecast of the sample
    predictor. *)
Lemma ex_synthetic_days :
  exists s0 s1 s2,
    iterate ex_forest 3%nat 1%nat
      (mkL (ex_heap ++ [Arr2 [ex_features_row]]) 2%nat ex_row [] []) = Ok s1 /\
    iterate ex_forest 3%nat 2%nat
      (mkL (ex_heap ++ [Arr2 [ex_features_row]]) 2%nat ex_row [] []) = Ok s2 /\
    last_real_data s0 = ex_row /\
    newest_day (current_row s1) = create_feature_from_prediction 50 ex_row /\
    newest_day (current_row s2)
    = create_feature_from_prediction 50 (last_real_data s1) /\
    (forall c, is_raw c = false -> last_real_data s1 c = ex_row c) /\
    last_real_data s1 Volume = Fin 50 /\
    nth 1 (predictions s2) 0 = 50.
Proof.
  assert (Hready : ready ex_predictor ex_heap) by solve_ready.
  set (h1 := ex_heap ++ [Arr2 [ex_features_row]]).
  assert (Hinit : init_current_features ex_predictor ex_heap = Ok (2%nat, h1))
    by reflexivity.
  destruct (ready_trace ex_predictor ex_heap 3%nat ex_forest ex_frame ex_row 2%nat h1
              0%nat Hready eq_refl eq_refl eq_refl Hinit)
    as (s0 & s1 & H0 & H1 & _).
  destruct (ready_trace ex_predictor ex_heap 3%nat ex_forest ex_frame ex_row 2%nat h1
              1%nat Hready eq_refl eq_refl eq_refl Hinit)
    as (s1' & s2 & H1' & H2 & _).
  destruct (synthetic_day_at ex_predictor ex_heap 3%nat ex_forest ex_frame ex_row 2%nat
              h1 0%nat s0 s1 Hready eq_refl eq_refl eq_refl Hinit H0 H1
              ltac:(lia)) as (D1 & P1 & _).
  destruct (synthetic_day_at ex_predictor ex_heap 3%nat ex_forest ex_frame ex_row 2%nat
              h1 1%nat s1 s2 Hready eq_refl eq_refl eq_refl Hinit H1 H2
              ltac:(lia)) as (D2 & P2 & _).
  destruct (last_real_data_at ex_predictor ex_heap 3%nat ex_forest ex_frame ex_row 2%nat
              h1 0%nat s0 Hready eq_refl eq_refl eq_refl Hinit H0 ltac:(lia))
    as (_ & L0 & _).
  destruct (last_real_data_at ex_predictor ex_heap 3%nat ex_forest ex_frame ex_row 2%nat
              h1 1%nat s1 Hready eq_refl eq_refl eq_refl Hinit H1 ltac:(lia))
    as (L1 & _ & L1').
  rewrite ex_prediction in P1, P2.
  destruct (L1' ltac:(lia)) as [_ V1]. simpl in V1. rewrite P1 in V1.
  exists s0, s1, s2. split; [exact H1|]. split; [exact H2|].
  split; [exact (L0 eq_refl)|].
  rewrite D1, D2, P1, P2, (L0 eq_refl).
  repeat split; [exact L1|exact V1].
Qed.

(** C3 (failing input): the sample predictor, forecasting three days.
    The first synthetic day carries the last real volume (1000). The
    second one carries the first prediction (50), because the loop stores
    [new_day_features[3]] (the close) as the volume of [last_real_data]. *)
Lemma synthetic_volume_slip :
  exists s1 s2,
    iterate ex_forest 3%nat 1%nat
      (mkL (ex_heap ++ [Arr2 [ex_features_row]]) 2%nat ex_row [] []) = Ok s1 /\
    iterate ex_forest 3%nat 2%nat
      (mkL (ex_heap ++ [Arr2 [ex_features_row]]) 2%nat ex_row [] []) = Ok s2 /\
    ex_row Volume = Fin 1000 /\
    day_field (newest_day (current_row s1)) Volume = Fin 1000 /\
    day_field (newest_day (current_row s2)) Volume = Fin 50.
Proof.
  destruct ex_synthetic_days
    as (s0 & s1 & s2 & H1 & H2 & _ & D1 & D2 & _ & V1 & _).
  exists s1, s2. split; [exact H1|]. split; [exact H2|].
  rewrite D1, D2. unfold day_field. cbn [col_pos_in feature_cols col_eq_dec].
  simpl. split; [reflexivity|]. split; [reflexivity|exact V1].
Qed.

(** C4 (counterexample): with the sample predictor forecasting three days,
    the [MA_5] of the second synthetic day is not
    [(MA_5 of the previous row * 4 + p) / 5]: it is 18, the same as the
    first synthetic day's, while the formula gives 24.4. *)
Lemma synthetic_ma_counterexample :
  exists s1 s2,
    iterate ex_forest 3%nat 1%nat
      (mkL (ex_heap ++ [Arr2 [ex_features_row]]) 2%nat ex_row [] []) = Ok s1 /\
    iterate ex_forest 3%nat 2%nat
      (mkL (ex_heap ++ [Arr2 [ex_features_row]]) 2%nat ex_row [] []) = Ok s2 /\
    day_field (newest_day (current_row s2)) MA_5
    <> fdiv (fadd (fmul (day_field (newest_day (current_row s1)) MA_5) (Fin 4))
                  (Fin (nth 1 (predictions s2) 0))) (Fin 5).
Proof.
  destruct ex_synthetic_days
    as (s0 & s1 & s2 & H1 & H2 & _ & D1 & D2 & Der & _ & P2).
  exists s1, s2. split; [exact H1|]. split; [exact H2|].
  rewrite D1, D2, P2. unfold day_field. cbn [col_pos_in feature_cols col_eq_dec].
  simpl. rewrite Der by reflexivity. simpl.
  destruct (Req_dec_T 5 0) as [E5|_]; [lra|]. simpl.
  destruct (Req_dec_T 5 0) as [E5|_]; [lra|].
  intros E. injection E. lra.
Qed.

(** C8 (counterexample): an untrained predictor (no model, no data, no
    features) asked for five days raises no exception of any kind. *)
Lemma untrained_no_error :
  ~ (exists e, predict_future (mkPredictor None None None None 60%nat) [] 5%nat
               = Raise e).
Proof. intros [e E]. discriminate E. Qed.

(** C8 (as the code does it): when the model has not been trained,
    [predict_future] prints a message and returns [(None, None, None)]
    without raising; the heap is left as it was. *)
Theorem predict_untrained (st : predictor) (h : heap) (days : nat) :
  model st = None -> predict_future st h days = Ok (h, None).
Proof. intros Hm. unfold predict_future. rewrite Hm. reflexivity. Qed.

Lemma predict_untrained_witness :
  model (mkPredictor None None None None 60%nat) = None /\
  predict_future (mkPredictor None None None None 60%nat) [] 5%nat
  = Ok ([], None).
Proof.
  split; [reflexivity|].
  apply (predict_untrained (mkPredictor None None None None 60%nat) [] 5%nat).
  reflexivity.
Defined.

Lemma init_current_features_prefix (st : predictor) (h h' : heap) (l : loc)
    (h1 : heap) :
  init_current_features st h = Ok (l, h1) -> firstn (length h) h' = h ->
  exists lf, h1 = h ++ [Arr2 [lf]] /\
    init_current_features st h' = Ok (length h', h' ++ [Arr2 [lf]]).
Proof.
  intros Hi Hp.
  destruct (init_current_features_ok _ _ _ _ Hi)
    as (floc & lf & Hf & Hlt & Hlf & _ & ->).
  exists lf. split; [reflexivity|].
  unfold init_current_features, get_features. rewrite Hf. cbn [bind].
  rewrite (deref_prefix h h' floc Hp Hlt), Hlf. reflexivity.
Qed.

(** C10: a forecast only appends cells to the heap: every array that
    existed before (the feature matrix, the targets) is unchanged, and the
    data frame and the model are fields of the predictor, which
    [predict_future] does not return. Calling it again with the same
    [days] on the resulting heap gives the same predictions, confidence
    scores and dates. *)
Theorem predict_future_no_mutation (st : predictor) (h h' : heap) (days : nat)
    (out : option (list R * list R * list Z)) :
  predict_future st h days = Ok (h', out) ->
  firstn (length h) h' = h /\
  exists h'', predict_future st h' days = Ok (h'', out).
Proof.
  intros E. destruct (model st) as [f|] eqn:Hm.
  - destruct (predict_future_stages st h days f Hm)
      as [(fr & last_row & last_date & l & h1 & Hd & Hr & Hi & Hinit)
         |(e & Ee)];
      [|rewrite Ee in E; discriminate E].
    destruct (predict_future_refines st h days f fr last_row last_date l h1
                Hm Hd Hr Hi Hinit) as (lf & Hh1 & Hl & Hm1).
    destruct (piterate f days days (mkP lf last_row [] [])) as [v|e] eqn:Hv;
      [|rewrite Hm1 in E; discriminate E].
    destruct Hm1 as (h2 & Hp & E2). rewrite E2 in E.
    injection E as <- <-. split; [exact Hp|].
    destruct (init_current_features_prefix st h h2 l h1 Hinit Hp)
      as (lf' & Hh1' & Hinit').
    rewrite Hh1 in Hh1'. apply app_inv_head in Hh1'.
    injection Hh1' as <-.
    destruct (predict_future_refines st h2 days f fr last_row last_date
                (length h2) (h2 ++ [Arr2 [lf]]) Hm Hd Hr Hi Hinit')
      as (lf'' & Hh1'' & _ & Hm2).
    apply app_inv_head in Hh1''. injection Hh1'' as <-.
    rewrite Hv in Hm2. destruct Hm2 as (h3 & _ & E3).
    exists h3. exact E3.
  - unfold predict_future in E |- *. rewrite Hm in E |- *.
    injection E as <- <-. split; [apply firstn_all|].
    exists h. reflexivity.
Qed.

Lemma predict_future_no_mutation_witness :
  exists h' out,
    predict_future ex_predictor ex_heap 3%nat = Ok (h', out) /\
    firstn (length ex_heap) h' = ex_heap /\
    exists h'', predict_future ex_predictor h' 3%nat = Ok (h'', out).
Proof.
  eexists. eexists. split; [reflexivity|].
  apply (predict_future_no_mutation ex_predictor ex_heap _ 3%nat _).
  reflexivity.
Defined.

(** ** Feature preparation *)

Lemma candidates_length (rs : list row) (lb : nat) :
  length (candidates rs lb) = (length rs - 1 - lb)%nat.
Proof. unfold candidates. rewrite length_map, length_seq. reflexivity. Qed.

Lemma with_indicators_length (ir : list row -> nat -> row) (fr : frame) :
  length (rows (with_indicators ir fr)) = length (rows fr).
Proof.
  unfold with_indicators. cbn [rows]. rewrite length_map, length_seq.
  reflexivity.
Qed.




Lemma mask_select_map {A B : Type} (g : A -> bool) (f : A -> B) (xs : list A) :
  mask_select (map g xs) (map f xs) = map f (filter g xs).
Proof.
  unfold mask_select. induction xs as [|x xs IH]; [reflexivity|].
  simpl. destruct (g x); simpl; rewrite IH; reflexivity.
Qed.

Lemma combine_map {A B C : Type} (f : A -> B) (g : A -> C) (xs : list A) :
  combine (map f xs) (map g xs) = map (fun x => (f x, g x)) xs.
Proof. induction xs as [|x xs IH]; simpl; [reflexivity|rewrite IH; reflexivity]. Qed.

Lemma feature_set_length (rs : list row) (lb i : nat) :
  length (feature_set rs lb i) = (lb * features_per_day)%nat.
Proof.
  unfold feature_set. generalize (i - lb)%nat as a.
  induction lb as [|n IH]; intros a; [reflexivity|].
  cbn [seq map concat]. rewrite length_app, length_map, IH.
  unfold features_per_day. simpl. lia.
Qed.

Lemma candidates_nth (rs : list row) (lb k : nat) :
  (k < length (candidates rs lb))%nat ->
  nth k (candidates rs lb) ([], NaN)
  = (concat (map (fun j => map (nth j rs nan_row) feature_cols) (seq k lb)),
     nth (lb + k + 1) rs nan_row Close).
Proof.
  intros Hk. rewrite candidates_length in Hk. unfold candidates.
  set (F := fun i => (feature_set rs lb i, nth (i + 1) rs nan_row Close)).
  rewrite (nth_indep _ _ (F 0%nat)) by (rewrite length_map, length_seq; lia).
  rewrite map_nth, seq_nth by lia. subst F. cbv beta.
  unfold feature_set. replace (lb + k - lb)%nat with k by lia.
  reflexivity.
Qed.

Lemma valid_mask (cs : list (list fnum * fnum)) :
  map (fun '(a, b) => negb a && negb (isnan b))
      (combine (map (existsb isnan) (map fst cs)) (map snd cs))
  = map (fun x => negb (existsb isnan (fst x)) && negb (isnan (snd x))) cs.
Proof.
  induction cs as [|[a b] cs IH]; simpl; [reflexivity|rewrite IH; reflexivity].
Qed.

Lemma np_array2_nonempty (xs : list (list fnum)) :
  xs <> [] -> np_array2 xs = Arr2 xs.
Proof. destruct xs; [contradiction|reflexivity]. Qed.

(** C5: with [L >= lookback_days + 2] bars, the loop yields
    [L - lookback_days - 1] pairs; pair [k] (index [i = lookback_days + k])
    is the flattened rows [k .. k + lookback_days - 1] (that is,
    [i - lookback_days .. i - 1]) with the close of row [i + 1]; every
    feature vector has [lookback_days * 19] entries; and the stored
    features and targets are exactly the pairs, in order and unchanged,
    whose window and target hold no NaN. *)
Theorem prepare_features_windows (ir : list row -> nat -> row)
    (st : predictor) (h : heap) (lb : nat) (fr : frame) :
  data st = Some fr -> (lb + 2 <= length (rows fr))%nat ->
  let rs := rows (with_indicators ir fr) in
  let cs := candidates rs lb in
  let good := fun x : list fnum * fnum =>
                negb (existsb isnan (fst x)) && negb (isnan (snd x)) in
  length cs = (length (rows fr) - lb - 1)%nat /\
  (forall k, (k < length cs)%nat ->
     nth k cs ([], NaN)
     = (concat (map (fun j => map (nth j rs nan_row) feature_cols)
                    (seq k lb)),
        nth (lb + k + 1) rs nan_row Close)) /\
  (forall x, In x cs -> length (fst x) = (lb * features_per_day)%nat) /\
  prepare_features ir st h lb
  = Ok (mkPredictor (model st) (Some (with_indicators ir fr))
                    (Some (length h)) (Some (length h + 1)%nat) lb,
        h ++ [Arr2 (map fst (filter good cs)); Arr1 (map snd (filter good cs))],
        true).
Proof.
  intros Hd Hlen rs cs good.
  assert (Hl : length cs = (length (rows fr) - lb - 1)%nat).
  { subst cs rs. rewrite candidates_length, with_indicators_length. lia. }
  split; [exact Hl|]. split; [intros k Hk; apply candidates_nth; exact Hk|].
  split.
  - intros x Hx. subst cs. unfold candidates in Hx.
    apply in_map_iff in Hx. destruct Hx as (i & <- & _).
    apply feature_set_length.
  - unfold prepare_features. rewrite Hd. cbv zeta. fold rs. fold cs.
    rewrite np_array2_nonempty.
    2:{ intros E. apply (f_equal (@length _)) in E. rewrite length_map in E.
        simpl in E. lia. }
    cbn [isnan_any_axis1 bind]. rewrite valid_mask.
    rewrite !mask_select_map. unfold alloc. rewrite length_app, <- app_assoc.
    reflexivity.
Qed.

Lemma prepare_features_windows_witness :
  let fr3 := mkFrame [0%Z; 1%Z; 2%Z] [ex_row; ex_row; ex_row] in
  let ir := fun (rs : list row) (i : nat) => nth i rs nan_row in
  let st := mkPredictor None (Some fr3) None None 30%nat in
  data st = Some fr3 /\ (1 + 2 <= length (rows fr3))%nat /\
  let rs := rows (with_indicators ir fr3) in
  let cs := candidates rs 1 in
  let good := fun x : list fnum * fnum =>
                negb (existsb isnan (fst x)) && negb (isnan (snd x)) in
  length cs = (length (rows fr3) - 1 - 1)%nat /\
  (forall k, (k < length cs)%nat ->
     nth k cs ([], NaN)
     = (concat (map (fun j => map (nth j rs nan_row) feature_cols)
                    (seq k 1)),
        nth (1 + k + 1) rs nan_row Close)) /\
  (forall x, In x cs -> length (fst x) = (1 * features_per_day)%nat) /\
  prepare_features ir st [] 1
  = Ok (mkPredictor (model st) (Some (with_indicators ir fr3))
                    (Some (length (@nil ndarray)))
                    (Some (length (@nil ndarray) + 1)%nat) 1,
        [] ++ [Arr2 (map fst (filter good cs)); Arr1 (map snd (filter good cs))],
        true).
Proof.
  intros fr3 ir st. split; [reflexivity|]. split; [simpl; lia|].
  apply (prepare_features_windows ir st [] 1%nat fr3); [reflexivity|simpl; lia].
Defined.

(** ** RSI(14) *)

Module RSIFacts.
Import Indicators.

Lemma nth_map_in {A B : Type} (f : A -> B) (l : list A) (i : nat) (da : A)
    (db : B) :
  (i < length l)%nat -> nth i (map f l) db = f (nth i l da).
Proof.
  intros Hi. rewrite (nth_indep _ db (f da)) by (rewrite length_map; lia).
  apply map_nth.
Qed.

Lemma nth_map_fin (cs : list R) (n : nat) :
  (n < length cs)%nat -> nth n (map Fin cs) NaN = Fin (nth n cs 0).
Proof. intros Hn. apply nth_map_in. exact Hn. Qed.

Lemma gain_input (cs : list R) :
  where0 (fun d => flt (Fin 0) d) (diff (map Fin cs))
  = map (fun j => Fin (up_move cs j)) (seq 0 (length cs)).
Proof.
  unfold where0, diff. rewrite length_map, map_map. apply map_ext_in.
  intros [|k] Hk; [reflexivity|]. apply in_seq in Hk.
  rewrite !nth_map_fin by lia. cbn [fsub fneg fadd flt up_move].
  destruct (Rlt_dec 0 _); reflexivity.
Qed.

Lemma loss_input (cs : list R) :
  map fneg (where0 (fun d => flt d (Fin 0)) (diff (map Fin cs)))
  = map (fun j => Fin (down_move cs j)) (seq 0 (length cs)).
Proof.
  unfold where0, diff. rewrite length_map, !map_map. apply map_ext_in.
  intros [|k] Hk; [reflexivity|]. apply in_seq in Hk.
  rewrite !nth_map_fin by lia. unfold down_move. cbn [fsub fneg fadd flt].
  destruct (Rlt_dec _ 0); reflexivity.
Qed.

Lemma firstn_seq (m s n : nat) : firstn m (seq s n) = seq s (Nat.min m n).
Proof.
  revert s n. induction m as [|m IH]; intros s [|n]; try reflexivity.
  simpl. rewrite IH. reflexivity.
Qed.

Lemma fsum_fin (xs : list R) : fsum (map Fin xs) = Fin (rsum xs).
Proof.
  induction xs as [|x xs IH]; [reflexivity|].
  unfold fsum in *. simpl. rewrite IH. reflexivity.
Qed.

Lemma existsb_isnan_fin (xs : list R) : existsb isnan (map Fin xs) = false.
Proof. induction xs as [|x xs IH]; [reflexivity|exact IH]. Qed.

Lemma rolling_mean_fin (v : nat -> R) (n i : nat) :
  (i < n)%nat ->
  nth i (rolling_mean 14 (map (fun j => Fin (v j)) (seq 0 n))) NaN
  = if Nat.ltb (i + 1) 14 then NaN
    else Fin (rsum (map v (seq (i - 13) 14)) / INR 14).
Proof.
  intros Hi. unfold rolling_mean.
  rewrite length_map, length_seq, (nth_map_in _ _ _ 0%nat) by (rewrite length_seq; lia).
  rewrite seq_nth by lia. cbv beta. simpl (0 + i)%nat.
  destruct (Nat.ltb (i + 1) 14) eqn:E; [reflexivity|].
  apply Nat.ltb_ge in E.
  rewrite skipn_map, firstn_map, skipn_seq, firstn_seq.
  replace (0 + (i + 1 - 14))%nat with (i - 13)%nat by lia.
  replace (Nat.min 14 (n - (i + 1 - 14))) with 14%nat by lia.
  rewrite <- (map_map v Fin), existsb_isnan_fin, fsum_fin.
  apply fdiv_fin. apply not_0_INR. lia.
Qed.

Lemma rsum_nonneg (v : nat -> R) (l : list nat) :
  (forall j, 0 <= v j) -> 0 <= rsum (map v l).
Proof.
  intros Hv. induction l as [|j l IH]; simpl; [lra|].
  specialize (Hv j). lra.
Qed.

Lemma up_move_nonneg (cs : list R) (j : nat) : 0 <= up_move cs j.
Proof.
  unfold up_move. destruct j; [lra|]. cbv zeta. destruct (Rlt_dec 0 _); lra.
Qed.

Lemma down_move_nonneg (cs : list R) (j : nat) : 0 <= down_move cs j.
Proof.
  unfold down_move. destruct j; [lra|]. cbv zeta. destruct (Rlt_dec _ 0); lra.
Qed.


Lemma rolling_mean_length (w : nat) (xs : list fnum) :
  length (rolling_mean w xs) = length xs.
Proof. unfold rolling_mean. rewrite length_map, length_seq. reflexivity. Qed.

Lemma diff_length (xs : list fnum) : length (diff xs) = length xs.
Proof. unfold diff. rewrite length_map, length_seq. reflexivity. Qed.

Lemma gain_length (close : list fnum) : length (gain close) = length close.
Proof.
  unfold gain, where0. rewrite rolling_mean_length, length_map, diff_length.
  reflexivity.
Qed.

Lemma loss_length (close : list fnum) : length (loss close) = length close.
Proof.
  unfold loss, where0. rewrite rolling_mean_length, !length_map, diff_length.
  reflexivity.
Qed.

Lemma gain_fin (cs : list R) (i : nat) :
  (i < length cs)%nat ->
  nth i (gain (map Fin cs)) NaN
  = if Nat.ltb (i + 1) 14 then NaN
    else Fin (rsum (map (up_move cs) (seq (i - 13) 14)) / INR 14).
Proof.
  intros Hi. unfold gain. rewrite gain_input.
  apply (rolling_mean_fin (up_move cs)). exact Hi.
Qed.

Lemma loss_fin (cs : list R) (i : nat) :
  (i < length cs)%nat ->
  nth i (loss (map Fin cs)) NaN
  = if Nat.ltb (i + 1) 14 then NaN
    else Fin (rsum (map (down_move cs) (seq (i - 13) 14)) / INR 14).
Proof.
  intros Hi. unfold loss. rewrite loss_input.
  apply (rolling_mean_fin (down_move cs)). exact Hi.
Qed.

Lemma rsi_nth (close : list fnum) (i : nat) :
  (i < length close)%nat ->
  nth i (rsi close) NaN
  = fsub (Fin 100) (fdiv (Fin 100) (fadd (Fin 1)
      (fdiv (nth i (gain close) NaN) (nth i (loss close) NaN)))).
Proof.
  intros Hi. unfold rsi, zip_with. rewrite map_map.
  rewrite (nth_map_in _ _ i (NaN, NaN) NaN)
    by (rewrite length_combine, gain_length, loss_length; lia).
  rewrite combine_nth by (rewrite gain_length, loss_length; reflexivity).
  reflexivity.
Qed.

Lemma rsi_value (g l : R) :
  0 <= g -> 0 <= l ->
  fsub (Fin 100) (fdiv (Fin 100) (fadd (Fin 1) (fdiv (Fin g) (Fin l))))
  = if Req_EM_T l 0 then (if Req_EM_T g 0 then NaN else Fin 100)
    else Fin (100 - 100 / (1 + g / l)).
Proof.
  intros Hg Hl. cbn [fdiv].
  destruct (Req_EM_T l 0) as [El|Nl].
  - destruct (Req_EM_T g 0) as [Eg|Ng]; [reflexivity|].
    unfold rpos. destruct (Rlt_dec 0 g) as [_|Ng']; [|lra].
    cbn [fadd fdiv fsub fneg]. f_equal. lra.
  - assert (Hq : 0 <= g / l).
    { unfold Rdiv. apply Rmult_le_pos; [lra|].
      left. apply Rinv_0_lt_compat. lra. }
    cbn [fadd fdiv fsub fneg].
    destruct (Req_EM_T (1 + g / l) 0) as [E|_]; [lra|].
    reflexivity.
Qed.

Lemma window_mean_nonneg (v : nat -> R) (a : nat) :
  (forall j, 0 <= v j) -> 0 <= rsum (map v (seq a 14)) / INR 14.
Proof.
  intros Hv. unfold Rdiv. apply Rmult_le_pos; [apply rsum_nonneg; exact Hv|].
  left. apply Rinv_0_lt_compat. apply lt_0_INR. lia.
Qed.

(** C6 (as the code does it): on a series of finite closes, RSI is NaN at
    the first 13 bars (indices 0 to 12); from index 13 on, the gain and
    loss averages are finite and nonnegative, and RSI is
    [100 - 100 / (1 + gain / loss)] when the loss average is positive,
    100 when it is zero and the gain average is positive, and NaN
    ([0 / 0]) when both averages are zero. *)
Theorem rsi_spec (cs : list R) (i : nat) :
  (i < length cs)%nat ->
  ((i < 13)%nat -> nth i (rsi (map Fin cs)) NaN = NaN) /\
  ((13 <= i)%nat ->
   let g := rsum (map (up_move cs) (seq (i - 13) 14)) / INR 14 in
   let l := rsum (map (down_move cs) (seq (i - 13) 14)) / INR 14 in
   nth i (gain (map Fin cs)) NaN = Fin g /\
   nth i (loss (map Fin cs)) NaN = Fin l /\
   0 <= g /\ 0 <= l /\
   (0 < l -> nth i (rsi (map Fin cs)) NaN = Fin (100 - 100 / (1 + g / l))) /\
   (l = 0 -> 0 < g -> nth i (rsi (map Fin cs)) NaN = Fin 100) /\
   (l = 0 -> g = 0 -> nth i (rsi (map Fin cs)) NaN = NaN)).
Proof.
  intros Hi. split.
  - intros H13. rewrite rsi_nth by (rewrite length_map; exact Hi).
    rewrite gain_fin by exact Hi.
    assert (E : Nat.ltb (i + 1) 14 = true) by (apply Nat.ltb_lt; lia).
    rewrite E. reflexivity.
  - intros H13 g l.
    assert (E : Nat.ltb (i + 1) 14 = false) by (apply Nat.ltb_ge; lia).
    assert (Hg : nth i (gain (map Fin cs)) NaN = Fin g)
      by (rewrite gain_fin by exact Hi; rewrite E; reflexivity).
    assert (Hl : nth i (loss (map Fin cs)) NaN = Fin l)
      by (rewrite loss_fin by exact Hi; rewrite E; reflexivity).
    assert (Pg : 0 <= g) by (apply window_mean_nonneg, up_move_nonneg).
    assert (Pl : 0 <= l) by (apply window_mean_nonneg, down_move_nonneg).
    rewrite rsi_nth, Hg, Hl, rsi_value by (try rewrite length_map; assumption).
    split; [reflexivity|]. split; [reflexivity|].
    split; [exact Pg|]. split; [exact Pl|].
    split; [|split].
    + intros Hp. destruct (Req_EM_T l 0); [lra|reflexivity].
    + intros Hz Hp. destruct (Req_EM_T l 0); [|lra].
      destruct (Req_EM_T g 0); [lra|reflexivity].
    + intros Hz Hz'. destruct (Req_EM_T l 0); [|lra].
      destruct (Req_EM_T g 0); [reflexivity|lra].
Qed.


Ltac decide_moves :=
  repeat match goal with
         | |- context [Rlt_dec ?a ?b] =>
             destruct (Rlt_dec a b); try (exfalso; lra)
         end.

Lemma INR_14 : INR 14 = 14.
Proof. rewrite INR_IZR_INZ. reflexivity. Qed.

Lemma flat_moves :
  rsum (map (up_move (repeat 10 15)) (seq 1 14)) = 0 /\
  rsum (map (down_move (repeat 10 15)) (seq 1 14)) = 0.
Proof. unfold up_move, down_move. simpl. split; decide_moves; lra. Qed.

Lemma rising_moves :
  rsum (map (up_move [0; 1; 2; 3; 4; 5; 6; 7; 8; 9; 10; 11; 12; 13])
            (seq 0 14)) = 13 /\
  rsum (map (down_move [0; 1; 2; 3; 4; 5; 6; 7; 8; 9; 10; 11; 12; 13])
            (seq 0 14)) = 0.
Proof. unfold up_move, down_move. simpl. split; decide_moves; lra. Qed.

Lemma rsi_spec_witness :
  (14 < length (repeat 10 15))%nat /\
  ((14 < 13)%nat -> nth 14 (rsi (map Fin (repeat 10 15))) NaN = NaN) /\
  ((13 <= 14)%nat ->
   let g := rsum (map (up_move (repeat 10 15)) (seq (14 - 13) 14)) / INR 14 in
   let l := rsum (map (down_move (repeat 10 15)) (seq (14 - 13) 14)) / INR 14 in
   nth 14 (gain (map Fin (repeat 10 15))) NaN = Fin g /\
   nth 14 (loss (map Fin (repeat 10 15))) NaN = Fin l /\
   0 <= g /\ 0 <= l /\
   (0 < l -> nth 14 (rsi (map Fin (repeat 10 15))) NaN
             = Fin (100 - 100 / (1 + g / l))) /\
   (l = 0 -> 0 < g -> nth 14 (rsi (map Fin (repeat 10 15))) NaN = Fin 100) /\
   (l = 0 -> g = 0 -> nth 14 (rsi (map Fin (repeat 10 15))) NaN = NaN)).
Proof.
  split; [simpl; lia|].
  apply (rsi_spec (repeat 10 15) 14). simpl. lia.
Defined.

(** C6 (counterexample): fifteen equal closes. At index 14 the decline
    average is 0 but RSI is NaN ([0 / 0]), not 100. And with the closes
    0, 1, ..., 13, RSI is already defined (100) at index 13, the
    fourteenth bar. *)
Lemma rsi_counterexample :
  nth 14 (loss (map Fin (repeat 10 15))) NaN = Fin 0 /\
  nth 14 (rsi (map Fin (repeat 10 15))) NaN = NaN /\
  nth 13 (rsi (map Fin [0; 1; 2; 3; 4; 5; 6; 7; 8; 9; 10; 11; 12; 13])) NaN
  = Fin 100.
Proof.
  destruct flat_moves as [Fu Fd]. destruct rising_moves as [Ru Rd].
  split; [|split].
  - rewrite loss_fin by (simpl; lia). cbn [Nat.ltb Nat.leb Nat.add].
    simpl (14 - 13)%nat. rewrite Fd. f_equal. lra.
  - rewrite rsi_nth by (simpl; lia).
    rewrite gain_fin, loss_fin by (simpl; lia). cbn [Nat.ltb Nat.leb Nat.add].
    simpl (14 - 13)%nat. rewrite Fu, Fd, INR_14, rsi_value by lra.
    destruct (Req_EM_T (0 / 14) 0); [|lra].
    reflexivity.
  - rewrite rsi_nth by (simpl; lia).
    rewrite gain_fin, loss_fin by (simpl; lia). cbn [Nat.ltb Nat.leb Nat.add].
    simpl (13 - 13)%nat. rewrite Ru, Rd, INR_14, rsi_value by lra.
    destruct (Req_EM_T (0 / 14) 0); [|lra].
    destruct (Req_EM_T (13 / 14) 0); [lra|].
    reflexivity.
Qed.

End RSIFacts.

Lemma confidence_spec_witness :
  (50 : R) <> 0 /\
  ((50 : R) <> 0 ->
   confidence 50 [50; 50]
   = Rmin (Rmax (1 - np_std [50; 50] / Rabs 50) 0) (95 / 100)) /\
  (0 <= confidence 50 [50; 50] <= 95 / 100) /\
  ((50 : R) = 0 -> confidence 50 [50; 50] = 0) /\
  ([50; 50] <> [] ->
   (forall x y, In x [50; 50] -> In y [50; 50] -> x = y) ->
   (50 : R) <> 0 -> confidence 50 [50; 50] = 95 / 100).
Proof. split; [lra|]. apply (confidence_spec 50 [50; 50]). Defined.


(** ** Tickers *)

Lemma ends_with_append (suf s : String.string) :
  ends_with suf (String.append s suf) = true.
Proof.
  induction s as [|a s IH]; cbn [String.append].
  - destruct suf as [|b suf]; [reflexivity|]. cbn [ends_with].
    rewrite String.eqb_refl. reflexivity.
  - cbn [ends_with]. rewrite IH. apply orb_true_r.
Qed.


(** Normalising a ticker twice gives the same ticker. *)
Theorem ticker_of_idempotent (stock_code : String.string) :
  ticker_of (ticker_of stock_code) = ticker_of stock_code.
Proof.
  remember (ticker_of stock_code) as t eqn:Ht. unfold ticker_of in Ht.
  unfold ticker_of.
  destruct (ends_with ".SZ" stock_code || ends_with ".SS" stock_code) eqn:E.
  - subst t. rewrite E. reflexivity.
  - destruct (String.prefix "6" stock_code); subst t;
      rewrite ends_with_append; [rewrite orb_true_r|]; reflexivity.
Qed.

(** ** Indicator columns *)

Module ColumnFacts.
Import Indicators Columns RSIFacts.



Lemma nth_seq_map {A : Type} (F : nat -> A) (n i : nat) (d : A) :
  (i < n)%nat -> nth i (map F (seq 0 n)) d = F i.
Proof.
  intros Hi. rewrite (nth_map_in _ _ _ 0%nat) by (rewrite length_seq; lia).
  rewrite seq_nth by lia. reflexivity.
Qed.



(** [pct_change] on a finite series (closes for [Price_Change], volumes
    for [Volume_Change]): NaN at the first bar; [(x - prev) / prev] after a
    non-zero value; after a zero value, [+inf] or [-inf] when the new
    value is positive or negative, which [np.isnan] does not flag, and NaN
    when it is zero too. *)
Theorem pct_change_fin (xs : list R) (i : nat) :
  (i < length xs)%nat ->
  (i = 0%nat -> nth i (pct_change (map Fin xs)) NaN = NaN) /\
  (forall k, i = S k ->
   let prev := nth k xs 0 in
   let cur := nth i xs 0 in
   (prev <> 0 -> nth i (pct_change (map Fin xs)) NaN = Fin ((cur - prev) / prev)) /\
   (prev = 0 -> 0 < cur -> nth i (pct_change (map Fin xs)) NaN = Inf true) /\
   (prev = 0 -> cur < 0 -> nth i (pct_change (map Fin xs)) NaN = Inf false) /\
   (prev = 0 -> cur = 0 -> nth i (pct_change (map Fin xs)) NaN = NaN)).
Proof.
  intros Hi. unfold pct_change. rewrite length_map, nth_seq_map by exact Hi.
  split; [intros ->; reflexivity|].
  intros k ->. rewrite !nth_map_fin by lia.
  set (prev := nth k xs 0). set (cur := nth (S k) xs 0).
  cbn [fdiv fsub fadd fneg].
  repeat split.
  - intros Hp. destruct (Req_EM_T prev 0); [contradiction|].
    cbn [fsub fneg fadd]. f_equal. field. exact Hp.
  - intros Hp Hc. destruct (Req_EM_T prev 0); [|contradiction].
    destruct (Req_EM_T cur 0); [lra|]. unfold rpos.
    destruct (Rlt_dec 0 cur); [reflexivity|lra].
  - intros Hp Hc. destruct (Req_EM_T prev 0); [|contradiction].
    destruct (Req_EM_T cur 0); [lra|]. unfold rpos.
    destruct (Rlt_dec 0 cur); [lra|reflexivity].
  - intros Hp Hc. destruct (Req_EM_T prev 0); [|contradiction].
    destruct (Req_EM_T cur 0); [reflexivity|contradiction].
Qed.

Lemma pct_change_fin_witness :
  (1 < length [0; 500])%nat /\
  ((1 = 0)%nat -> nth 1 (pct_change (map Fin [0; 500])) NaN = NaN) /\
  (forall k, 1%nat = S k ->
   let prev := nth k [0; 500] 0 in
   let cur := nth 1 [0; 500] 0 in
   (prev <> 0 -> nth 1 (pct_change (map Fin [0; 500])) NaN
                 = Fin ((cur - prev) / prev)) /\
   (prev = 0 -> 0 < cur -> nth 1 (pct_change (map Fin [0; 500])) NaN = Inf true) /\
   (prev = 0 -> cur < 0 -> nth 1 (pct_change (map Fin [0; 500])) NaN = Inf false) /\
   (prev = 0 -> cur = 0 -> nth 1 (pct_change (map Fin [0; 500])) NaN = NaN)).
Proof.
  split; [simpl; lia|].
  apply (pct_change_fin [0; 500] 1). simpl. lia.
Defined.










End ColumnFacts.

Module MACDFacts.
Import Indicators Columns RSIFacts ColumnFacts.

Lemma rsum_map_le (l : list nat) (f g : nat -> R) :
  (forall i, In i l -> f i <= g i) -> rsum (map f l) <= rsum (map g l).
Proof.
  induction l as [|a l IH]; intros H; simpl; [lra|].
  pose proof (H a (or_introl eq_refl)).
  assert (rsum (map f l) <= rsum (map g l)) by (apply IH; intros; apply H; right; assumption).
  lra.
Qed.

Lemma rsum_map_scale (l : list nat) (c : R) (f : nat -> R) :
  rsum (map (fun i => f i * c) l) = rsum (map f l) * c.
Proof. induction l as [|a l IH]; simpl; [ring|]. rewrite IH. ring. Qed.

Lemma rsum_pow_ge1 (w : R) (t : nat) :
  0 <= w -> 1 <= rsum (map (fun i => w ^ i) (seq 0 (S t))).
Proof.
  intros Hw. cbn [seq map rsum fold_right]. fold (rsum (map (fun i => w ^ i) (seq 1 t))).
  assert (0 <= rsum (map (fun i => w ^ i) (seq 1 t))).
  { replace 0 with (rsum (map (fun _ : nat => 0) (seq 1 t))).
    - apply rsum_map_le. intros i _. apply pow_le. exact Hw.
    - clear. generalize 1%nat. induction t; intros s; simpl; [reflexivity|].
      rewrite IHt. ring. }
  simpl. lra.
Qed.

Lemma ewm_weight_nonneg (span : R) : 1 <= span -> 0 <= 1 - 2 / (span + 1).
Proof.
  intros Hs. assert (2 / (span + 1) <= 1); [|lra].
  apply Rmult_le_reg_r with (span + 1); [lra|].
  unfold Rdiv. rewrite Rmult_assoc, Rinv_l by lra. lra.
Qed.

Lemma ewm_mean_length (span : R) (xs : list R) :
  length (ewm_mean span xs) = length xs.
Proof. unfold ewm_mean. rewrite length_map, length_seq. reflexivity. Qed.

Lemma sub_series_length (xs ys : list R) :
  length (sub_series xs ys) = Nat.min (length xs) (length ys).
Proof. unfold sub_series. rewrite length_map, length_combine. reflexivity. Qed.

Lemma ewm_at_0 (alpha : R) (xs : list R) : ewm_at alpha xs 0 = nth 0 xs 0.
Proof. unfold ewm_at. simpl. field. Qed.

(** The exponentially weighted mean of [ewm(span=s, adjust=True)] at bar
    [t], [s >= 1], is a weighted average of the values up to [t]: it stays
    within any bounds that hold for all of them. *)
Lemma ewm_at_bounds (span lo hi : R) (xs : list R) (t : nat) :
  1 <= span -> Forall (fun x => lo <= x <= hi) xs -> (t < length xs)%nat ->
  lo <= ewm_at (2 / (span + 1)) xs t <= hi.
Proof.
  intros Hs Hall Ht. unfold ewm_at.
  set (w := 1 - 2 / (span + 1)).
  assert (Hw : 0 <= w) by (apply ewm_weight_nonneg; exact Hs).
  set (den := rsum (map (fun i => w ^ i) (seq 0 (S t)))).
  assert (Hd : 1 <= den) by (apply rsum_pow_ge1; exact Hw).
  rewrite Forall_forall in Hall.
  assert (Hx : forall i, In i (seq 0 (S t)) -> lo <= nth (t - i) xs 0 <= hi).
  { intros i Hi. apply Hall. apply nth_In. lia. }
  assert (Hlo : rsum (map (fun i => w ^ i * lo) (seq 0 (S t)))
                <= rsum (map (fun i => w ^ i * nth (t - i) xs 0) (seq 0 (S t)))).
  { apply rsum_map_le. intros i Hi. apply Rmult_le_compat_l;
      [apply pow_le; exact Hw | apply Hx; exact Hi]. }
  assert (Hhi : rsum (map (fun i => w ^ i * nth (t - i) xs 0) (seq 0 (S t)))
                <= rsum (map (fun i => w ^ i * hi) (seq 0 (S t)))).
  { apply rsum_map_le. intros i Hi. apply Rmult_le_compat_l;
      [apply pow_le; exact Hw | apply Hx; exact Hi]. }
  rewrite rsum_map_scale in Hlo, Hhi.
  change (rsum (map (pow w) (seq 0 (S t)))) with den in Hlo, Hhi.
  set (num := rsum (map (fun i => w ^ i * nth (t - i) xs 0) (seq 0 (S t)))) in *.
  split.
  - apply Rmult_le_reg_r with den; [lra|].
    unfold Rdiv. rewrite Rmult_assoc, Rinv_l by lra. lra.
  - apply Rmult_le_reg_r with den; [lra|].
    unfold Rdiv. rewrite Rmult_assoc, Rinv_l by lra. lra.
Qed.

Lemma ewm_mean_repeat (span c : R) (n : nat) :
  1 <= span -> ewm_mean span (repeat c n) = repeat c n.
Proof.
  intros Hs. apply nth_ext with (d := 0) (d' := 0).
  - rewrite ewm_mean_length. reflexivity.
  - intros t Ht. rewrite ewm_mean_length in Ht. unfold ewm_mean.
    rewrite nth_seq_map by exact Ht.
    rewrite repeat_length in Ht. rewrite nth_repeat_lt by exact Ht.
    assert (B : c <= ewm_at (2 / (span + 1)) (repeat c n) t <= c).
    { apply ewm_at_bounds; [exact Hs| |rewrite repeat_length; exact Ht].
      apply Forall_forall. intros x Hx. apply repeat_spec in Hx. lra. }
    lra.
Qed.

Lemma sub_series_repeat (c : R) (n : nat) :
  sub_series (repeat c n) (repeat c n) = repeat 0 n.
Proof.
  unfold sub_series. induction n as [|n IH]; simpl; [reflexivity|].
  rewrite IH. f_equal. ring.
Qed.

(** The EMA columns [ewm(span=s).mean()] (pandas' default [adjust=True])
    used for MACD stay within the range of the closes: with all closes in
    [[lo, hi]], every EMA value is in [[lo, hi]]. *)
Theorem ewm_mean_bounds (span lo hi : R) (xs : list R) (t : nat) :
  1 <= span -> Forall (fun x => lo <= x <= hi) xs -> (t < length xs)%nat ->
  lo <= nth t (ewm_mean span xs) 0 <= hi.
Proof.
  intros Hs Hall Ht. unfold ewm_mean. rewrite nth_seq_map by exact Ht.
  apply ewm_at_bounds; assumption.
Qed.

Lemma ewm_mean_bounds_witness :
  1 <= 12 /\ Forall (fun x => 9 <= x <= 11) [10; 11; 9] /\
  (2 < length [10; 11; 9])%nat /\
  9 <= nth 2 (ewm_mean 12 [10; 11; 9]) 0 <= 11.
Proof.
  assert (H1 : 1 <= 12) by lra.
  assert (H2 : Forall (fun x => 9 <= x <= 11) [10; 11; 9])
    by (repeat constructor; lra).
  assert (H3 : (2 < length [10; 11; 9])%nat) by (simpl; lia).
  split; [exact H1|]. split; [exact H2|]. split; [exact H3|].
  exact (ewm_mean_bounds 12 9 11 [10; 11; 9] 2 H1 H2 H3).
Defined.

Lemma ewm_mean_first (span : R) (xs : list R) :
  nth 0 (ewm_mean span xs) 0 = nth 0 xs 0.
Proof.
  destruct xs as [|x xs]; [reflexivity|].
  unfold ewm_mean. rewrite nth_seq_map by (simpl; lia). apply ewm_at_0.
Qed.

Lemma sub_series_first (x y : R) (xs ys : list R) :
  nth 0 (sub_series (x :: xs) (y :: ys)) 0 = x - y.
Proof. reflexivity. Qed.

Lemma ewm_mean_cons (span x : R) (xs : list R) :
  exists e es, ewm_mean span (x :: xs) = e :: es.
Proof. unfold ewm_mean. simpl. eexists _, _. reflexivity. Qed.

(** On the first bar, MACD, its signal line and its histogram are all 0:
    every EMA starts at the first value. *)
Theorem macd_first_bar (c0 : R) (cs : list R) :
  nth 0 (macd (c0 :: cs)) 0 = 0 /\
  nth 0 (macd_signal (c0 :: cs)) 0 = 0 /\
  nth 0 (macd_histogram (c0 :: cs)) 0 = 0.
Proof.
  assert (Hm : nth 0 (macd (c0 :: cs)) 0 = 0).
  { unfold macd.
    destruct (ewm_mean_cons 12 c0 cs) as (e1 & es1 & E1).
    destruct (ewm_mean_cons 26 c0 cs) as (e2 & es2 & E2).
    rewrite E1, E2, sub_series_first.
    pose proof (ewm_mean_first 12 (c0 :: cs)) as F1.
    pose proof (ewm_mean_first 26 (c0 :: cs)) as F2.
    rewrite E1 in F1. rewrite E2 in F2. simpl in F1, F2. lra. }
  assert (Hs : nth 0 (macd_signal (c0 :: cs)) 0 = 0).
  { unfold macd_signal. rewrite ewm_mean_first. exact Hm. }
  split; [exact Hm|]. split; [exact Hs|].
  unfold macd_histogram. unfold macd_signal in *.
  destruct (macd (c0 :: cs)) as [|m ms] eqn:E.
  - reflexivity.
  - destruct (ewm_mean_cons 9 m ms) as (e & es & Ee).
    rewrite Ee in Hs |- *. rewrite sub_series_first.
    simpl in Hm, Hs. lra.
Qed.

(** On a constant price series, MACD, signal line and histogram are 0 at
    every bar. *)
Theorem macd_constant (c : R) (n : nat) :
  macd (repeat c n) = repeat 0 n /\
  macd_signal (repeat c n) = repeat 0 n /\
  macd_histogram (repeat c n) = repeat 0 n.
Proof.
  assert (Hm : macd (repeat c n) = repeat 0 n).
  { unfold macd. rewrite !ewm_mean_repeat by lra. apply sub_series_repeat. }
  assert (Hs : macd_signal (repeat c n) = repeat 0 n).
  { unfold macd_signal. rewrite Hm. apply ewm_mean_repeat. lra. }
  split; [exact Hm|]. split; [exact Hs|].
  unfold macd_histogram. rewrite Hm, Hs. apply sub_series_repeat.
Qed.

End MACDFacts.

(** ** The synthetic bar *)


(** ** The forecast dates *)

Lemma ready_predicts (st : predictor) (h : heap) (days : nat) :
  ready st h ->
  exists h' preds confs dates,
    predict_future st h days = Ok (h', Some (preds, confs, dates)).
Proof.
  intros Hready.
  destruct (ready_stages st h Hready)
    as (f & fr & last_row & last_date & lf & Ef & Hd & Hr & Hi & Hinit & Hlen).
  destruct (predict_future_refines st h days f fr last_row last_date _ _
              Ef Hd Hr Hi Hinit) as (lf' & Heq & _ & Hpf).
  apply app_inv_head in Heq. injection Heq as <-.
  destruct Hready as (_ & _ & Hlb & _).
  destruct (piterate_wide f days (mkP lf last_row [] []) days)
    as (v & Ev & _); [simpl; rewrite Hlen; nia|].
  rewrite Ev in Hpf. destruct Hpf as (h' & _ & Hpf).
  exists h', (ppreds v), (pconfs v), (future_dates_of last_date days).
  exact Hpf.
Qed.

(** The forecast dates are the [days] calendar days that follow the last
    date of the data, one per day with no gap: weekends and holidays are
    not skipped. *)
Theorem predict_future_dates (st : predictor) (h h' : heap) (days : nat)
    (preds confs : list R) (dates : list Z) :
  predict_future st h days = Ok (h', Some (preds, confs, dates)) ->
  exists fr last_date,
    data st = Some fr /\ iloc_last (index fr) = Ok last_date /\
    length dates = days /\
    forall i, (i < days)%nat -> nth i dates 0%Z = (last_date + Z.of_nat i + 1)%Z.
Proof.
  intros E.
  destruct (model st) as [f|] eqn:Ef.
  2:{ unfold predict_future in E. rewrite Ef in E. discriminate. }
  destruct (predict_future_stages st h days f Ef)
    as [(fr & last_row & last_date & l & h1 & Hd & Hr & Hi & Hinit)
       | (e & He)]; [|congruence].
  destruct (predict_future_refines st h days f fr last_row last_date l h1
              Ef Hd Hr Hi Hinit) as (lf & _ & _ & Hpf).
  destruct (piterate f days days (mkP lf last_row [] [])) as [v|e] eqn:Ev.
  2:{ congruence. }
  destruct Hpf as (h'' & _ & Hpf). rewrite Hpf in E.
  injection E as _ _ _ <-.
  exists fr, last_date. split; [exact Hd|]. split; [exact Hi|].
  unfold future_dates_of. rewrite length_map, length_seq.
  split; [reflexivity|].
  intros i Hi'. rewrite (RSIFacts.nth_map_in _ _ i 0%nat) by (rewrite length_seq; lia).
  rewrite seq_nth by lia. lia.
Qed.

Lemma predict_future_dates_witness :
  exists h' preds confs dates,
    predict_future ex_predictor ex_heap 3%nat = Ok (h', Some (preds, confs, dates)) /\
    exists fr last_date,
      data ex_predictor = Some fr /\ iloc_last (index fr) = Ok last_date /\
      length dates = 3%nat /\
      forall i, (i < 3)%nat -> nth i dates 0%Z = (last_date + Z.of_nat i + 1)%Z.
Proof.
  assert (Hr : ready ex_predictor ex_heap) by solve_ready.
  destruct (ready_predicts ex_predictor ex_heap 3%nat Hr)
    as (h' & preds & confs & dates & E).
  exists h', preds, confs, dates. split; [exact E|].
  exact (predict_future_dates ex_predictor ex_heap h' 3%nat preds confs dates E).
Defined.

(** ** [analyze_stock] *)

Lemma filter_all_false {A : Type} (g : A -> bool) (xs : list A) :
  (forall x, In x xs -> g x = false) -> filter g xs = [].
Proof.
  induction xs as [|x xs IH]; intros H; [reflexivity|].
  simpl. rewrite (H x (or_introl eq_refl)). apply IH.
  intros y Hy. apply H. right. exact Hy.
Qed.

Lemma deref_app2 (h : heap) (a b : ndarray) :
  deref ((h ++ [a]) ++ [b]) (length h) = a.
Proof. rewrite <- app_assoc. unfold deref. apply nth_middle. Qed.

(** When the download fails or gives an empty frame, [analyze_stock]
    stops after [get_stock_data]: no report, the heap is untouched, and
    the model, features and targets are those it started with. *)
Theorem analyze_stock_no_data
    (fetch : String.string -> String.string -> res frame)
    (ir : list row -> nat -> row) (fit : ndarray -> ndarray -> res forest)
    (st : predictor) (h : heap) (stock_code period : String.string)
    (predict_days : nat) :
  match fetch (ticker_of stock_code) period with
  | Ok fr => rows fr = []
  | Raise _ => True
  end ->
  exists st',
    analyze_stock fetch ir fit st h stock_code period predict_days
    = Ok (st', h, None) /\
    model st' = model st /\ features st' = features st /\
    targets st' = targets st.
Proof.
  intros H. unfold analyze_stock, get_stock_data.
  destruct (fetch (ticker_of stock_code) period) as [fr|e].
  - rewrite H. cbn. eexists. split; [reflexivity|]. auto.
  - cbn. eexists. split; [reflexivity|]. auto.
Qed.

Lemma analyze_stock_no_data_witness :
  True /\
  exists st',
    analyze_stock (fun _ _ => Raise ValueError) (fun _ _ => nan_row)
      (fun _ _ => Ok ex_forest) ex_predictor ex_heap "600036" "1y" 5%nat
    = Ok (st', ex_heap, None) /\
    model st' = model ex_predictor /\ features st' = features ex_predictor /\
    targets st' = targets ex_predictor.
Proof.
  split; [exact I|].
  apply (analyze_stock_no_data (fun _ _ => Raise ValueError)
           (fun _ _ => nan_row) (fun _ _ => Ok ex_forest) ex_predictor ex_heap
           "600036" "1y" 5%nat).
  exact I.
Defined.

(** With a non-empty series of fewer than 32 bars, [analyze_stock]
    (which uses [lookback_days=30]) raises numpy's [AxisError] in
    [prepare_features], whatever the indicators, the model fitting and
    [predict_days]; nothing catches it, so [main] raises it too. *)
Theorem analyze_stock_short_history
    (fetch : String.string -> String.string -> res frame)
    (ir : list row -> nat -> row) (fit : ndarray -> ndarray -> res forest)
    (st : predictor) (h : heap) (stock_code period : String.string)
    (predict_days : nat) (fr : frame) :
  fetch (ticker_of stock_code) period = Ok fr ->
  rows fr <> [] -> (length (rows fr) < 32)%nat ->
  analyze_stock fetch ir fit st h stock_code period predict_days
  = Raise AxisError.
Proof.
  intros Hf Hne Hlen. unfold analyze_stock, get_stock_data. rewrite Hf.
  assert (E : Nat.eqb (length (rows fr)) 0 = false).
  { apply Nat.eqb_neq. intros Z. apply Hne. apply length_zero_iff_nil. exact Z. }
  rewrite E. cbn [negb].
  assert (Hc : candidates (rows (with_indicators ir fr)) 30 = []).
  { apply length_zero_iff_nil. rewrite candidates_length,
      with_indicators_length. lia. }
  unfold prepare_features. cbn [data]. cbv zeta. rewrite Hc. reflexivity.
Qed.

Lemma analyze_stock_short_history_witness :
  (fun _ _ => Ok ex_frame : res frame) (ticker_of "000001") "1y"%string = Ok ex_frame /\
  rows ex_frame <> [] /\ (length (rows ex_frame) < 32)%nat /\
  main (fun _ _ => Ok ex_frame) (fun _ _ => nan_row) (fun _ _ => Ok ex_forest)
    "000001" (Some 7%Z) = Raise AxisError.
Proof.
  split; [reflexivity|]. split; [discriminate|]. split; [simpl; lia|].
  unfold main. apply (analyze_stock_short_history (fun _ _ => Ok ex_frame)
           (fun _ _ => nan_row) (fun _ _ => Ok ex_forest) new_predictor []
           "000001" "1y" (Z.to_nat (clamp_days (Some 7%Z))) ex_frame);
    [reflexivity | discriminate | simpl; lia].
Defined.

(** When the series is long enough ([>= 32] bars) but every window or
    target holds a NaN, [prepare_features] stores an empty feature matrix,
    [train_model] refuses it without calling [fit], and [analyze_stock]
    ends with no report and no model trained. *)
Theorem analyze_stock_all_nan
    (fetch : String.string -> String.string -> res frame)
    (ir : list row -> nat -> row) (fit : ndarray -> ndarray -> res forest)
    (st : predictor) (h : heap) (stock_code period : String.string)
    (predict_days : nat) (fr : frame) :
  fetch (ticker_of stock_code) period = Ok fr ->
  (32 <= length (rows fr))%nat ->
  (forall c, In c (candidates (rows (with_indicators ir fr)) 30) ->
     existsb isnan (fst c) = true \/ isnan (snd c) = true) ->
  analyze_stock fetch ir fit st h stock_code period predict_days
  = Ok (mkPredictor (model st) (Some (with_indicators ir fr))
                    (Some (length h)) (Some (length h + 1)%nat) 30,
        (h ++ [Arr2 []]) ++ [Arr1 []], None).
Proof.
  intros Hf Hlen Hnan. unfold analyze_stock, get_stock_data. rewrite Hf.
  assert (E : Nat.eqb (length (rows fr)) 0 = false) by (apply Nat.eqb_neq; lia).
  rewrite E. cbn [negb].
  unfold prepare_features. cbn [data]. cbv zeta.
  set (cs := candidates (rows (with_indicators ir fr)) 30).
  assert (Hcs : cs <> []).
  { intros Z. apply (f_equal (@length _)) in Z. subst cs.
    rewrite candidates_length, with_indicators_length in Z. simpl in Z. lia. }
  rewrite np_array2_nonempty.
  2:{ intros Z. apply (f_equal (@length _)) in Z. rewrite length_map in Z.
      apply Hcs. apply length_zero_iff_nil. exact Z. }
  cbn [isnan_any_axis1 bind]. rewrite valid_mask, !mask_select_map.
  rewrite filter_all_false.
  2:{ intros x Hx. destruct (Hnan x Hx) as [H1|H1]; rewrite H1;
      [reflexivity|apply andb_false_r]. }
  cbn [map alloc bind]. unfold train_model. cbn [features].
  rewrite deref_app2. cbn [np_len Nat.eqb negb]. rewrite length_app.
  cbn [length]. reflexivity.
Qed.

Lemma analyze_stock_all_nan_witness :
  let fr32 := mkFrame (map Z.of_nat (seq 0 32)) (repeat ex_row 32) in
  (32 <= length (rows fr32))%nat /\
  analyze_stock (fun _ _ => Ok fr32) (fun _ _ => nan_row)
    (fun _ _ => Ok ex_forest) new_predictor [] "600036" "1y" 5%nat
  = Ok (mkPredictor None (Some (with_indicators (fun _ _ => nan_row) fr32))
                    (Some 0%nat) (Some 1%nat) 30,
        ([] ++ [Arr2 []]) ++ [Arr1 []], None).
Proof.
  intros fr32. split; [simpl; lia|].
  apply (analyze_stock_all_nan (fun _ _ => Ok fr32) (fun _ _ => nan_row)
           (fun _ _ => Ok ex_forest) new_predictor [] "600036" "1y" 5%nat fr32);
    [reflexivity | simpl; lia |].
  intros c Hc. unfold candidates in Hc. apply in_map_iff in Hc.
  destruct Hc as (i & <- & Hi). simpl in Hi. destruct Hi as [<-|[]].
  left. vm_compute. reflexivity.
Defined.

(** ** The printed report *)

Lemma rsum_app (xs ys : list R) : rsum (xs ++ ys) = rsum xs + rsum ys.
Proof. induction xs as [|x xs IH]; simpl; [ring|]. unfold rsum in *. rewrite IH. ring. Qed.

Lemma last_nth_len (l : list R) (d : R) : last l d = nth (length l - 1) l d.
Proof.
  induction l as [|x [|y t] IH]; [reflexivity|reflexivity|].
  change (last (x :: y :: t) d) with (last (y :: t) d). rewrite IH.
  cbn [length]. replace (S (S (length t)) - 1)%nat with (S (length t)) by lia.
  replace (S (length t) - 1)%nat with (length t) by lia. reflexivity.
Qed.

Lemma prev_price_fin (c : R) (preds : list R) (i : nat) :
  prev_price (Fin c) preds i
  = Fin (match i with O => c | S k => nth k preds 0 end).
Proof. destruct i; reflexivity. Qed.

Lemma telescope (c : R) (preds : list R) (n : nat) :
  (1 <= n)%nat ->
  rsum (map (fun i => nth i preds 0 - match i with O => c | S k => nth k preds 0 end)
            (seq 0 n))
  = nth (n - 1) preds 0 - c.
Proof.
  induction n as [|n IH]; intros Hn; [lia|].
  destruct n as [|n]; [simpl; ring|].
  rewrite seq_S, map_app, rsum_app, IH by lia. cbn [map rsum fold_right].
  replace (S n - 1)%nat with n by lia. replace (S (S n) - 1)%nat with (S n) by lia.
  simpl (0 + S n)%nat. cbv iota. ring.
Qed.

Lemma map_nth_seq_R (preds : list R) :
  map (fun i => nth i preds 0) (seq 0 (length preds)) = preds.
Proof.
  apply nth_ext with (d := 0) (d' := 0).
  - rewrite length_map, length_seq. reflexivity.
  - intros i Hi. rewrite length_map, length_seq in Hi.
    rewrite ColumnFacts.nth_seq_map by exact Hi. reflexivity.
Qed.

(** The report lists one line per prediction. Line [i] shows the
    prediction, its change from the previous prediction (from the current
    price for the first line), the up arrow exactly when that change is
    positive, and the total change [prediction - current_price]. The day
    changes add up to the final change [predictions[-1] - current_price]. *)
Theorem report_changes (c : R) (preds confs : list R) :
  length confs = length preds ->
  let r := make_report (Fin c) preds confs in
  let prev := fun i => match i with O => c | S k => nth k preds 0 end in
  length (rp_lines r) = length preds /\
  map dl_pred (rp_lines r) = preds /\
  map dl_change (rp_lines r)
  = map (fun i => Fin (nth i preds 0 - prev i)) (seq 0 (length preds)) /\
  map dl_up (rp_lines r)
  = map (fun i => if Rlt_dec (prev i) (nth i preds 0) then true else false)
        (seq 0 (length preds)) /\
  map dl_total_change (rp_lines r) = map (fun p => Fin (p - c)) preds /\
  (preds <> [] ->
   rp_final_change r
   = Fin (rsum (map (fun i => nth i preds 0 - prev i) (seq 0 (length preds))))).
Proof.
  intros Hl r prev.
  assert (Hn : length (combine preds confs) = length preds)
    by (rewrite length_combine, Hl; lia).
  unfold r, make_report. cbn [rp_lines rp_final_change]. rewrite Hn.
  split; [rewrite length_map, length_seq; reflexivity|].
  split.
  { rewrite map_map. cbn [dl_pred make_line]. apply map_nth_seq_R. }
  split.
  { rewrite map_map. apply map_ext. intros i. unfold make_line. cbn [dl_change].
    rewrite prev_price_fin. cbn [fsub fneg fadd]. f_equal; unfold prev; ring. }
  split.
  { rewrite map_map. apply map_ext. intros i. unfold make_line. cbn [dl_up].
    rewrite prev_price_fin. cbn [fsub fneg fadd flt]. fold (prev i).
    destruct (Rlt_dec 0 (nth i preds 0 + - prev i)),
             (Rlt_dec (prev i) (nth i preds 0)); reflexivity || lra. }
  split.
  { rewrite map_map. rewrite <- (map_nth_seq_R preds) at 2. rewrite map_map.
    apply map_ext. intros i. reflexivity. }
  intros Hne. unfold prev. rewrite telescope.
  2:{ destruct preds; [contradiction|simpl; lia]. }
  rewrite last_nth_len. reflexivity.
Qed.

Lemma report_changes_witness :
  length [1; 1] = length [10; 12] /\
  let r := make_report (Fin 11) [10; 12] [1; 1] in
  let prev := fun i => match i with O => 11 | S k => nth k [10; 12] 0 end in
  length (rp_lines r) = length [10; 12] /\
  map dl_pred (rp_lines r) = [10; 12] /\
  map dl_change (rp_lines r)
  = map (fun i => Fin (nth i [10; 12] 0 - prev i)) (seq 0 (length [10; 12])) /\
  map dl_up (rp_lines r)
  = map (fun i => if Rlt_dec (prev i) (nth i [10; 12] 0) then true else false)
        (seq 0 (length [10; 12])) /\
  map dl_total_change (rp_lines r) = map (fun p => Fin (p - 11)) [10; 12] /\
  ([10; 12] <> [] ->
   rp_final_change r
   = Fin (rsum (map (fun i => nth i [10; 12] 0 - prev i)
                    (seq 0 (length [10; 12]))))).
Proof.
  split; [reflexivity|].
  apply (report_changes 11 [10; 12] [1; 1]). reflexivity.
Defined.

(** With a current price of 0, the final change percentage is a division
    by zero: an infinity when the last prediction is non-zero, NaN when it
    is 0. The trend is then "Strong Bullish" when the last prediction is
    positive and "Strong Bearish" otherwise (NaN fails every comparison). *)
Theorem report_zero_price (preds confs : list R) :
  rp_trend (make_report (Fin 0) preds confs)
  = if Rlt_dec 0 (last preds 0) then StrongBullish else StrongBearish.
Proof.
  unfold make_report. cbn [rp_trend fsub fneg fadd].
  set (p := last preds 0). unfold fdiv.
  destruct (Req_EM_T 0 0) as [_|N]; [|lra].
  destruct (Req_EM_T (p + - 0) 0) as [E|E].
  - destruct (Rlt_dec 0 p); [lra|]. reflexivity.
  - unfold fmul. destruct (Req_EM_T 100 0); [lra|].
    unfold rpos. destruct (Rlt_dec 0 100); [|lra].
    destruct (Rlt_dec 0 (p + - 0)), (Rlt_dec 0 p); try lra; reflexivity.
Qed.

(** The trend label is monotone in the final change percentage. *)
Theorem trend_of_monotone (x y : R) :
  x <= y -> (trend_rank (trend_of (Fin x)) <= trend_rank (trend_of (Fin y)))%nat.
Proof.
  intros H. unfold trend_of, flt.
  repeat match goal with
         | |- context [Rlt_dec ?a ?b] => destruct (Rlt_dec a b)
         end; cbn [trend_rank]; first [lia | lra].
Qed.

Lemma trend_of_monotone_witness :
  1 <= 3 /\ (trend_rank (trend_of (Fin 1)) <= trend_rank (trend_of (Fin 3)))%nat.
Proof. split; [lra|]. apply (trend_of_monotone 1 3). lra. Defined.

(** ** [main] *)

(** The number of days [main] forecasts is in [1, 90]: an integer in range
    is kept, one outside is clamped to the nearest bound, and an input
    that is not an integer gives 5. *)
Theorem clamp_days_range (parsed : option Z) :
  (1 <= clamp_days parsed <= 90)%Z /\
  (forall n, (1 <= n <= 90)%Z -> clamp_days (Some n) = n) /\
  (forall n, (n < 1)%Z -> clamp_days (Some n) = 1%Z) /\
  (forall n, (90 < n)%Z -> clamp_days (Some n) = 90%Z) /\
  clamp_days None = 5%Z.
Proof.
  split; [destruct parsed; simpl; lia|].
  split; [intros n Hn; simpl; lia|].
  split; [intros n Hn; simpl; lia|].
  split; [intros n Hn; simpl; lia|reflexivity].
Qed.

(** ** The confidence band of [plot_predictions] *)

Lemma confidence_range (p : R) (tps : list R) :
  0 <= confidence p tps <= 95 / 100.
Proof.
  unfold confidence. split.
  - apply Rmin_glb; [apply Rmax_r | lra].
  - apply Rmin_r.
Qed.

(** The band drawn around a non-negative prediction [p] with its
    confidence score contains [p], is centred on it, and its width is
    between [0.015 p] (confidence 0.95) and [0.3 p] (confidence 0). *)
Theorem conf_band_bounds (pred : R) (tps : list R) :
  0 <= pred ->
  let '(lo, hi) := conf_band pred (confidence pred tps) in
  lo <= pred <= hi /\ lo + hi = 2 * pred /\
  3 / 200 * pred <= hi - lo <= 3 / 10 * pred.
Proof.
  intros Hp. pose proof (confidence_range pred tps) as Hc.
  unfold conf_band. set (k := confidence pred tps) in *.
  split; [split|split]; [nra|nra|ring|split; nra].
Qed.

Lemma conf_band_bounds_witness :
  0 <= 100 /\
  let '(lo, hi) := conf_band 100 (confidence 100 [90; 110]) in
  lo <= 100 <= hi /\ lo + hi = 2 * 100 /\
  3 / 200 * 100 <= hi - lo <= 3 / 10 * 100.
Proof. split; [lra|]. apply (conf_band_bounds 100 [90; 110]). lra. Defined.

(** ** The range of RSI *)

Module RSIRange.
Import Indicators RSIFacts.




End RSIRange.
